(** * monitor_windows_internals.py: a shallow embedding and its properties

    The program is a terminal dashboard: every two seconds [update_stats]
    reads CPU, memory, disk and the process list from psutil, formats three
    stat lines and a table of the five largest processes, and stores both
    texts in the display widget.

    The embedding keeps the shape of the source.  What psutil returns is
    the input (records with the fields the code reads); Python's own
    operations used by the code ([//], slicing, [len], [str], the format
    specs [:>6], [:<24], [:>12], [sorted], [join], attribute access on
    [None]) live in [Module Py]; [update_stats] itself runs in an error
    monad because the loop body sits inside [try]/[except]. *)

From Stdlib Require Import ZArith String Ascii List Lia Bool Permutation Sorted.
Import ListNotations.

Set Implicit Arguments.

Open Scope string_scope.
Open Scope Z_scope.

(** ** Python runtime pieces used by the script *)

Module Py.

(** The exceptions that matter here: the two psutil ones named in the
    [except] clause, and the two a failed attribute access or [len] give. *)
Inductive exn : Type :=
| AttributeError
| TypeError
| NoSuchProcess
| AccessDenied.

Inductive result (A : Type) : Type :=
| Ok (a : A)
| Raise (e : exn).

Arguments Ok {A} a.
Arguments Raise {A} e.

Definition ret {A} (a : A) : result A := Ok a.

Definition bind {A B} (m : result A) (k : A -> result B) : result B :=
  match m with
  | Ok a => k a
  | Raise e => Raise e
  end.

(** [x // y] on integers is floor division. *)
Definition floordiv (x y : Z) : Z := x / y.

(** [s * n] for a string [s]. *)
Fixpoint str_mul (s : string) (n : nat) : string :=
  match n with
  | O => ""
  | S n' => s ++ str_mul s n'
  end.

(** [s[:n]] *)
Definition slice_to (n : nat) (s : string) : string := substring 0 n s.

(** [str(n)] for an integer: decimal digits, most significant first, with
    a leading minus sign for a negative number.  The digit loop is driven
    by fuel taken from the binary size of the number, which is at least
    its number of decimal digits. *)
Definition digit_char (d : Z) : ascii := ascii_of_nat (48 + Z.to_nat d).

Arguments digit_char : simpl never.

Fixpoint digits_fuel (fuel : nat) (n : Z) (acc : string) : string :=
  match fuel with
  | O => acc
  | S f =>
      let acc' := String (digit_char (n mod 10)) acc in
      if n <? 10 then acc' else digits_fuel f (n / 10) acc'
  end.

Definition str_nonneg (n : Z) : string :=
  digits_fuel (S (Z.to_nat (Z.log2 n))) n "".

Definition str_int (n : Z) : string :=
  if n <? 0 then String "-" (str_nonneg (- n)) else str_nonneg n.

(** A float that psutil has already rounded to one decimal place
    ([round(x, 1)]), kept as its number of tenths: [12.3] is
    [{| tenths := 123 |}].  [str] of such a float prints the integer part,
    a point, and the one decimal digit. *)
Record float1 : Type := { tenths : Z }.

Definition str_float (x : float1) : string :=
  let a := Z.abs (tenths x) in
  (if tenths x <? 0 then "-" else "")
    ++ str_nonneg (a / 10) ++ "." ++ str_nonneg (a mod 10).

(** Format specs [:>w] and [:<w]: pad with spaces up to the width, never
    cut. *)
Definition rjust (w : nat) (s : string) : string :=
  str_mul " " (w - String.length s) ++ s.

Definition ljust (w : nat) (s : string) : string :=
  s ++ str_mul " " (w - String.length s).

Definition newline : string := String (ascii_of_nat 10) "".

(** ["\n".join(lines)] *)
Definition join_lines (lines : list string) : string :=
  String.concat newline lines.

(** [sorted(xs, key=f, reverse=True)]: the key is computed once for every
    element, in order (so a raising key aborts the call); the elements are
    then put in descending key order, elements with equal keys keeping
    their order in [xs].  Python guarantees this stability also under
    [reverse=True]; a stable sort has one possible result, here computed
    by insertion. *)
Section Sorted.
Variable A : Type.

Fixpoint decorate (key : A -> result Z) (xs : list A)
  : result (list (Z * A)) :=
  match xs with
  | [] => ret []
  | x :: xs' =>
      bind (key x) (fun k =>
      bind (decorate key xs') (fun d =>
      ret ((k, x) :: d)))
  end.

Fixpoint insert_desc (x : Z * A) (l : list (Z * A)) : list (Z * A) :=
  match l with
  | [] => [x]
  | y :: l' =>
      if fst x <? fst y then y :: insert_desc x l' else x :: y :: l'
  end.

Fixpoint sort_desc (l : list (Z * A)) : list (Z * A) :=
  match l with
  | [] => []
  | x :: l' => insert_desc x (sort_desc l')
  end.

Definition sorted_reverse (key : A -> result Z) (xs : list A)
  : result (list A) :=
  bind (decorate key xs) (fun d => ret (map snd (sort_desc d))).
End Sorted.

End Py.

Import Py.

Notation "x <- m ;; k" := (Py.bind m (fun x => k))
  (at level 61, m at next level, right associativity).

(** ** What psutil hands to the script *)

Module Psutil.

(** [psutil.virtual_memory()]: the fields the script reads. *)
Record svmem : Type := {
  vm_total : Z;
  vm_used : Z;
  vm_percent : float1
}.

(** [psutil.disk_usage("/")] *)
Record sdiskusage : Type := {
  du_total : Z;
  du_used : Z;
  du_percent : float1
}.

(** The [memory_info] value of a process. *)
Record pmem : Type := { rss : Z; vms : Z }.

(** One element of [process_iter(["pid", "name", "memory_info"])]: its
    [info] dictionary.  psutil fills an entry it was denied access to with
    [None]; the script tests for that on [memory_info]. *)
Record process : Type := {
  pid : Z;
  name : string;
  memory_info : option pmem
}.

(** Everything one call of [update_stats] reads from the host. *)
Record sample : Type := {
  cpu_percent : float1;
  virtual_memory : svmem;
  disk_usage : sdiskusage;
  process_iter : list process
}.

(** The same dictionary with every entry psutil can be denied: the name
    can be [None] just as the memory information can.  [process] is the
    case of a name that is there. *)
Record proc_info : Type := {
  info_pid : Z;
  info_name : option string;
  info_memory_info : option pmem
}.

Record host_sample : Type := {
  host_cpu_percent : float1;
  host_virtual_memory : svmem;
  host_disk_usage : sdiskusage;
  host_process_iter : list proc_info
}.

End Psutil.

Import Psutil.

(** ** What the framework does with keys *)

Module Textual.

(** The bindings [textual.app.App] brings with it: its own [BINDINGS]
    ([ctrl+q] to quit, [ctrl+c] to the quit hint) and the command palette
    key it binds when an app is built.  Every [App] subclass inherits
    them. *)
Definition App_BINDINGS : list (string * string * string) :=
  [("ctrl+q", "quit", "Quit");
   ("ctrl+c", "help_quit", "");
   ("ctrl+p", "command_palette", "palette")].

(** The bindings of a class are merged with those of its bases; where both
    bind a key, the class's own binding is the one found. *)
Definition merge_bindings (own base : list (string * string * string))
  : list (string * string * string) :=
  (own ++ base)%list.

(** The action a key press is dispatched to: the first binding of the
    key. *)
Definition lookup_action (bindings : list (string * string * string))
    (key : string) : option string :=
  match find (fun b => String.eqb (fst (fst b)) key) bindings with
  | Some b => Some (snd (fst b))
  | None => None
  end.

(** Where [App.run()] stands after some key presses. *)
Inductive run_state : Type :=
| Returned (value : option Z)
| Running
| Acting (action : string).

(** [App.run()], as far as keys go.  Keys are handled in the order they
    are pressed.  A key without a binding is dropped.  A key bound to
    [quit] makes the app exit: [action_quit] calls [exit()] without a
    result, and [run] returns that absent result.  With a key bound to
    another action the app goes on under that action, which is not
    followed here. *)
Fixpoint run (bindings : list (string * string * string))
    (keys : list string) : run_state :=
  match keys with
  | [] => Running
  | key :: rest =>
      match lookup_action bindings key with
      | None => run bindings rest
      | Some action =>
          if String.eqb action "quit" then Returned None else Acting action
      end
  end.

End Textual.

(** ** The application *)

(** [SystemStatsWidget]: its two reactive text fields. *)
Record SystemStatsWidget : Type := {
  stats : string;
  table : string
}.

(** [BINDINGS = [("q", "quit", "Quit")]] *)
Definition BINDINGS : list (string * string * string) :=
  [("q", "quit", "Quit")].

(** [class MonitorApp(App)]: the bindings of the running application are
    its own [BINDINGS] merged with those [App] brings. *)
Definition MonitorApp_bindings : list (string * string * string) :=
  Textual.merge_bindings BINDINGS Textual.App_BINDINGS.

(** The action a key press is dispatched to in the running application. *)
Definition bound_action (key : string) : option string :=
  Textual.lookup_action MonitorApp_bindings key.

(** [x.rss] for [x = proc.info["memory_info"]]: on [None] the attribute
    access raises. *)
Definition attr_rss (x : option pmem) : result Z :=
  match x with
  | Some m => Ok (rss m)
  | None => Raise AttributeError
  end.

(** Truth value of [proc.info["memory_info"]]: [None] is false, the
    (non-empty) named tuple is true. *)
Definition truthy (x : option pmem) : bool :=
  match x with
  | Some _ => true
  | None => false
  end.

(** [lambda p: p.info["memory_info"].rss if p.info["memory_info"] else 0] *)
Definition sort_key (p : process) : result Z :=
  if truthy (memory_info p) then attr_rss (memory_info p) else Ok 0.

(** [1024**2] and [1024**3] *)
Definition MB : Z := 1024 ^ 2.
Definition GB : Z := 1024 ^ 3.

Definition cpu (c : float1) : string :=
  "[bold yellow]CPU Usage:[/] [yellow]" ++ str_float c ++ "%[/]".

Definition memory (mem : svmem) : string :=
  "[bold magenta]Memory:[/] [magenta]" ++ str_float (vm_percent mem)
    ++ "%[/] used "
    ++ "([green]" ++ str_int (floordiv (vm_used mem) MB) ++ "MB[/]/[blue]"
    ++ str_int (floordiv (vm_total mem) MB) ++ "MB[/])".

Definition disk_str (disk : sdiskusage) : string :=
  "[bold green]Disk:[/] [green]" ++ str_float (du_percent disk)
    ++ "%[/] used "
    ++ "([green]" ++ str_int (floordiv (du_used disk) GB) ++ "GB[/]/[blue]"
    ++ str_int (floordiv (du_total disk) GB) ++ "GB[/])".

(** [processes = sorted(process_iter(...), key=..., reverse=True)] *)
Definition processes (ps : list process) : result (list process) :=
  sorted_reverse sort_key ps.

(** [processes[:5]] *)
Definition top_processes (ps : list process) : result (list process) :=
  sorted <- processes ps ;;
  ret (firstn 5 sorted).

(** The three fixed lines the table starts with. *)
Definition table_title : string :=
  "[bold underline]Top 5 Processes by Memory Usage:[/]".

Definition table_columns : string :=
  "[bold cyan]" ++ rjust 6 "PID" ++ "[/]  [bold white]" ++ ljust 24 "Name"
    ++ "[/]  [bold magenta]" ++ rjust 12 "Memory (MB)" ++ "[/]".

Definition table_divider : string :=
  str_mul "-" 6 ++ "  " ++ str_mul "-" 24 ++ "  " ++ str_mul "-" 12.

(** [(name[:21] + '...') if len(name) > 24 else name] *)
Definition display_name (nm : string) : string :=
  if (24 <? String.length nm)%nat then slice_to 21 nm ++ "..." else nm.

Definition format_row (p : Z) (nm : string) (mem_mb : Z) : string :=
  "[cyan]" ++ rjust 6 (str_int p) ++ "[/]  [white]" ++ ljust 24 nm
    ++ "[/]  [magenta]" ++ rjust 12 (str_int mem_mb) ++ "[/]".

(** The body of the [try]: the row of one process. *)
Definition process_row (proc : process) : result string :=
  r <- attr_rss (memory_info proc) ;;
  let mem_mb := floordiv r MB in
  let nm := display_name (name proc) in
  ret (format_row (pid proc) nm mem_mb).

(** One turn of the [for] loop: [try] the row and append it; on
    [NoSuchProcess] or [AccessDenied], [continue]; any other exception
    leaves the loop and the function. *)
Definition loop_step (lines : list string) (proc : process)
  : result (list string) :=
  match process_row proc with
  | Ok row => Ok (lines ++ [row])%list
  | Raise NoSuchProcess => Ok lines
  | Raise AccessDenied => Ok lines
  | Raise e => Raise e
  end.

Fixpoint for_loop (lines : list string) (procs : list process)
  : result (list string) :=
  match procs with
  | [] => Ok lines
  | proc :: rest =>
      lines' <- loop_step lines proc ;;
      for_loop lines' rest
  end.

(** [table_lines] when the loop is over. *)
Definition table_lines (ps : list process) : result (list string) :=
  top <- top_processes ps ;;
  for_loop [table_title; table_columns; table_divider] top.

(** [stats = f"{cpu}\n{memory}\n{disk_str}"] *)
Definition stats_text (s : sample) : string :=
  cpu (cpu_percent s) ++ newline ++ memory (virtual_memory s)
    ++ newline ++ disk_str (disk_usage s).

(** [update_stats]: the two assignments at the end are reached only when
    nothing was raised before; otherwise the widget keeps its texts and the
    exception goes to the caller. *)
Definition update_stats (s : sample) (w : SystemStatsWidget)
  : result SystemStatsWidget :=
  let st := stats_text s in
  lines <- table_lines (process_iter s) ;;
  ret {| stats := st; table := join_lines lines |}.

(** *** The tick over entries whose name can be [None] *)

(** [len(x)] for [x = proc.info['name']]: on [None] it raises. *)
Definition len_name (x : option string) : result nat :=
  match x with
  | Some nm => Ok (String.length nm)
  | None => Raise TypeError
  end.

(** [(name[:21] + '...') if len(name) > 24 else name]: the test is
    evaluated first. *)
Definition info_display_name (x : option string) : result string :=
  n <- len_name x ;;
  match x with
  | Some nm => ret (if (24 <? n)%nat then slice_to 21 nm ++ "..." else nm)
  | None => Raise TypeError
  end.

Definition info_sort_key (p : proc_info) : result Z :=
  if truthy (info_memory_info p) then attr_rss (info_memory_info p)
  else Ok 0.

Definition info_processes (ps : list proc_info) : result (list proc_info) :=
  sorted_reverse info_sort_key ps.

Definition info_top_processes (ps : list proc_info)
  : result (list proc_info) :=
  sorted <- info_processes ps ;;
  ret (firstn 5 sorted).

Definition info_process_row (proc : proc_info) : result string :=
  r <- attr_rss (info_memory_info proc) ;;
  let mem_mb := floordiv r MB in
  nm <- info_display_name (info_name proc) ;;
  ret (format_row (info_pid proc) nm mem_mb).

Definition info_loop_step (lines : list string) (proc : proc_info)
  : result (list string) :=
  match info_process_row proc with
  | Ok row => Ok (lines ++ [row])%list
  | Raise NoSuchProcess => Ok lines
  | Raise AccessDenied => Ok lines
  | Raise e => Raise e
  end.

Fixpoint info_for_loop (lines : list string) (procs : list proc_info)
  : result (list string) :=
  match procs with
  | [] => Ok lines
  | proc :: rest =>
      lines' <- info_loop_step lines proc ;;
      info_for_loop lines' rest
  end.

Definition info_table_lines (ps : list proc_info) : result (list string) :=
  top <- info_top_processes ps ;;
  info_for_loop [table_title; table_columns; table_divider] top.

Definition host_stats_text (s : host_sample) : string :=
  cpu (host_cpu_percent s) ++ newline ++ memory (host_virtual_memory s)
    ++ newline ++ disk_str (host_disk_usage s).

Definition info_update_stats (s : host_sample) (w : SystemStatsWidget)
  : result SystemStatsWidget :=
  let st := host_stats_text s in
  lines <- info_table_lines (host_process_iter s) ;;
  ret {| stats := st; table := join_lines lines |}.

(** *** Start-up and entry point *)

Inductive callback : Type := cb_update_stats.

(** What [on_mount] asks of the framework, in program order. *)
Inductive effect : Type :=
| SetInterval (seconds : Z) (cb : callback)
| Await (cb : callback).

(** [self.set_interval(2, self.update_stats); await self.update_stats()] *)
Definition on_mount : list effect :=
  [SetInterval 2 cb_update_stats; Await cb_update_stats].

(** Calls made by the handler itself, at the time [t0] it runs. *)
Definition immediate_calls (prog : list effect) (t0 : Z)
  : list (Z * callback) :=
  flat_map (fun e => match e with
                     | Await cb => [(t0, cb)]
                     | SetInterval _ _ => []
                     end) prog.

(** The timers the handler registers. *)
Definition registered_timers (prog : list effect) : list (Z * callback) :=
  flat_map (fun e => match e with
                     | SetInterval d cb => [(d, cb)]
                     | Await _ => []
                     end) prog.

(** A timer set at [t0] with interval [d] fires at [t0 + d], [t0 + 2 d],
    ...: its [k]-th firing (counted from 1). *)
Definition firing_time (t0 d : Z) (k : nat) : Z := t0 + d * Z.of_nat k.

(** Calls of the callbacks up to the [n]-th firing of each timer. *)
Definition timer_calls (prog : list effect) (t0 : Z) (n : nat)
  : list (Z * callback) :=
  flat_map (fun t => map (fun k => (firing_time t0 (fst t) k, snd t))
                         (seq 1 n))
           (registered_timers prog).

Section EntryPoint.
(** [MonitorApp().run()] is the framework's: it returns (with the app's
    return value) or raises. *)
Variable App_run : result (option Z).

(** [main]: the value of [run()] is dropped. *)
Definition main : result unit :=
  _ <- App_run ;;
  ret tt.

(** Exit status of the interpreter after [if __name__ == "__main__":
    main()]: 0 when the script runs to its end, 1 on an uncaught
    exception. *)
Definition exit_status : Z :=
  match main with
  | Ok _ => 0
  | Raise _ => 1
  end.
End EntryPoint.

(** Exit status of the script after a session of key presses: that of
    [main] over what [MonitorApp().run()] returned, and none while the
    application has not returned. *)
Definition session_exit_status (keys : list string) : option Z :=
  match Textual.run MonitorApp_bindings keys with
  | Textual.Returned value => Some (exit_status (Ok value))
  | Textual.Running => None
  | Textual.Acting _ => None
  end.

(** ** Vocabulary of the properties *)

(** The resident memory a process is ranked with: its [rss], or 0 when its
    memory information is [None]. *)
Definition ranked_rss (p : process) : Z :=
  match memory_info p with
  | Some m => rss m
  | None => 0
  end.

Definition has_rss (k : Z) (p : process) : bool := ranked_rss p =? k.

(** Descending order of ranked resident memory. *)
Definition rss_desc (p q : process) : Prop := ranked_rss q <= ranked_rss p.

(** Insertion into, and sorting of, a list by a total key, descending and
    stable: what [sort_desc] does to a list decorated with that key. *)
Section SortBy.
Variable A : Type.
Variable f : A -> Z.

Definition with_key (x : A) : Z * A := (f x, x).

Definition desc_by (x y : A) : Prop := f y <= f x.

Definition keyed_by (k : Z) (x : A) : bool := f x =? k.

Fixpoint insert_by (x : A) (l : list A) : list A :=
  match l with
  | [] => [x]
  | y :: l' => if f x <? f y then y :: insert_by x l' else x :: y :: l'
  end.

Fixpoint sort_by (l : list A) : list A :=
  match l with
  | [] => []
  | x :: l' => insert_by x (sort_by l')
  end.
End SortBy.

(** Characters of a string. *)
Fixpoint has_char (c : ascii) (s : string) : bool :=
  match s with
  | EmptyString => false
  | String x s' => Ascii.eqb x c || has_char c s'
  end.

Fixpoint all_chars (P : ascii -> bool) (s : string) : bool :=
  match s with
  | EmptyString => true
  | String x s' => P x && all_chars P s'
  end.

Definition is_digit (c : ascii) : bool :=
  ((48 <=? nat_of_ascii c) && (nat_of_ascii c <=? 57))%nat.

(** Characters [str] of a number can contain. *)
Definition is_number_char (c : ascii) : bool :=
  is_digit c || Ascii.eqb c "-" || Ascii.eqb c ".".

(** Reading a stat line back: the text in front of the first [c] ... *)
Fixpoint before_first (c : ascii) (s : string) : string :=
  match s with
  | EmptyString => EmptyString
  | String x s' => if Ascii.eqb x c then EmptyString
                   else String x (before_first c s')
  end.

(** ... and the text behind the last [c]. *)
Fixpoint after_last (c : ascii) (s : string) : string :=
  match s with
  | EmptyString => EmptyString
  | String x s' =>
      if has_char c s' then after_last c s'
      else if Ascii.eqb x c then s' else s
  end.

(** The percentage a stat line shows: what stands between the last markup
    tag in front of the first percent sign and that sign. *)
Definition shown_percent (line : string) : string :=
  after_last "]" (before_first "%" line).

(** The percentage "used divided by total, times 100", to the one decimal
    psutil's floats carry (nearest tenth). *)
Definition used_over_total (used total : Z) : float1 :=
  {| tenths := (2000 * used + total) / (2 * total) |}.

(** A data row of the table for a process: the three cells in the widths of
    the column header, between the row's markup tags. *)
Definition row_of (p : process) (row : string) : Prop :=
  exists m,
    memory_info p = Some m /\
    row = "[cyan]" ++ rjust 6 (str_int (pid p)) ++ "[/]  [white]"
            ++ ljust 24 (display_name (name p)) ++ "[/]  [magenta]"
            ++ rjust 12 (str_int (rss m / 2 ^ 20)) ++ "[/]".

(** A process whose memory information can be read. *)
Definition readable (p : process) : bool := truthy (memory_info p).

(** A process that reports resident memory above zero. *)
Definition has_memory (p : process) : bool := 0 <? ranked_rss p.

(** The row of a readable process, written with its ranked memory. *)
Definition row_text (p : process) : string :=
  format_row (pid p) (display_name (name p)) (floordiv (ranked_rss p) MB).

(** The line feed, and [s.split("\n")]: the pieces between line feeds,
    one more than there are line feeds. *)
Definition LF : ascii := ascii_of_nat 10.

Definition not_newline (c : ascii) : bool := negb (Ascii.eqb c LF).

Fixpoint split_on (c : ascii) (s : string) : list string :=
  match s with
  | EmptyString => [EmptyString]
  | String x s' =>
      if Ascii.eqb x c then EmptyString :: split_on c s'
      else match split_on c s' with
           | [] => [String x EmptyString]
           | piece :: pieces => String x piece :: pieces
           end
  end.

Definition split_lines (s : string) : list string := split_on LF s.

(** For entries whose name can be [None]: the ranked memory, the entry
    read as a [process] (an absent name read as the empty one), and what
    the row of an entry fails with, if it fails. *)
Definition info_ranked_rss (p : proc_info) : Z :=
  match info_memory_info p with
  | Some m => rss m
  | None => 0
  end.

Definition info_has_memory (p : proc_info) : bool := 0 <? info_ranked_rss p.

Definition named (p : proc_info) : process :=
  {| pid := info_pid p;
     name := match info_name p with Some nm => nm | None => "" end;
     memory_info := info_memory_info p |}.

Definition row_failure (p : proc_info) : option exn :=
  match info_memory_info p, info_name p with
  | None, _ => Some AttributeError
  | Some _, None => Some TypeError
  | Some _, Some _ => None
  end.

(** An entry with both its memory information and its name. *)
Definition complete (p : proc_info) : bool :=
  match row_failure p with
  | Some _ => false
  | None => true
  end.

Definition named_sample (s : host_sample) : sample :=
  {| cpu_percent := host_cpu_percent s;
     virtual_memory := host_virtual_memory s;
     disk_usage := host_disk_usage s;
     process_iter := map named (host_process_iter s) |}.

(** ** Sample inputs *)

Definition MiB : Z := 1048576.
Definition GiB : Z := 1073741824.

Definition proc (p : Z) (nm : string) (mem_mib : Z) : process :=
  {| pid := p; name := nm;
     memory_info := Some {| rss := mem_mib * MiB; vms := 0 |} |}.

(** A process whose memory information psutil was denied. *)
Definition denied_proc : process :=
  {| pid := 4; name := "System"; memory_info := None |}.

(** A name of 30 characters. *)
Definition long_name : string := "MsMpEng_AntimalwareService.exe".

(** CPU 12.3%, memory 4096MB of 16384MB, disk 100GB of 500GB, and five
    processes of 500, 300, 300, 100 and 50 MB. *)
Definition five_procs : list process :=
  [proc 812 long_name 500; proc 1204 "chrome.exe" 300;
   proc 96 "explorer.exe" 300; proc 5120 "python.exe" 100;
   proc 77 "svchost.exe" 50].

Definition sample_five : sample :=
  {| cpu_percent := {| tenths := 123 |};
     virtual_memory := {| vm_total := 16384 * MiB; vm_used := 4096 * MiB;
                          vm_percent := {| tenths := 250 |} |};
     disk_usage := {| du_total := 500 * GiB; du_used := 100 * GiB;
                      du_percent := {| tenths := 200 |} |};
     process_iter := five_procs |}.

(** The same host with one readable process and one denied one. *)
Definition sample_denied : sample :=
  {| cpu_percent := cpu_percent sample_five;
     virtual_memory := virtual_memory sample_five;
     disk_usage := disk_usage sample_five;
     process_iter := [proc 1204 "chrome.exe" 300; denied_proc] |}.

(** A memory reading whose percentage counts what is not available (8 of
    16 GiB) while [used] leaves buffers and caches out (6 GiB), and a disk
    reading whose percentage is taken over the space open to the user (100
    of 475 GiB) rather than over the whole disk. *)
Definition mem_reading : svmem :=
  {| vm_total := 16 * GiB; vm_used := 6 * GiB;
     vm_percent := {| tenths := 500 |} |}.

Definition disk_reading : sdiskusage :=
  {| du_total := 500 * GiB; du_used := 100 * GiB;
     du_percent := {| tenths := 211 |} |}.


(** Entries: one with everything, one denied its memory information, one
    denied its name. *)
Definition info (p : Z) (nm : string) (mem_mib : Z) : proc_info :=
  {| info_pid := p; info_name := Some nm;
     info_memory_info := Some {| rss := mem_mib * MiB; vms := 0 |} |}.

Definition info_no_memory : proc_info :=
  {| info_pid := 4; info_name := Some "System"; info_memory_info := None |}.

Definition info_no_name : proc_info :=
  {| info_pid := 88; info_name := None;
     info_memory_info := Some {| rss := 200 * MiB; vms := 0 |} |}.

Definition five_infos : list proc_info :=
  [info 812 long_name 500; info 1204 "chrome.exe" 300;
   info 96 "explorer.exe" 300; info 5120 "python.exe" 100;
   info 77 "svchost.exe" 50].

Definition host (ps : list proc_info) : host_sample :=
  {| host_cpu_percent := cpu_percent sample_five;
     host_virtual_memory := virtual_memory sample_five;
     host_disk_usage := disk_usage sample_five;
     host_process_iter := ps |}.

Definition blank_widget : SystemStatsWidget := {| stats := ""; table := "" |}.

(** ** Facts about the runtime pieces *)

Section StringFacts.

Lemma length_app (a b : string) :
  String.length (a ++ b) = (String.length a + String.length b)%nat.
Proof.
  induction a as [|c a IH]; simpl; [reflexivity|].
  now rewrite IH.
Qed.

Lemma app_assoc_str (a b c : string) : (a ++ b) ++ c = a ++ (b ++ c).
Proof.
  induction a as [|x a IH]; simpl; [reflexivity|].
  now rewrite IH.
Qed.

Lemma length_str_mul_char (c : ascii) (n : nat) :
  String.length (str_mul (String c "") n) = n.
Proof.
  induction n as [|n IH]; simpl; [reflexivity|].
  now rewrite IH.
Qed.

Lemma length_rjust (w : nat) (s : string) :
  String.length (rjust w s) = Nat.max w (String.length s).
Proof.
  unfold rjust. rewrite length_app, length_str_mul_char. lia.
Qed.

Lemma length_ljust (w : nat) (s : string) :
  String.length (ljust w s) = Nat.max w (String.length s).
Proof.
  unfold ljust. rewrite length_app, length_str_mul_char. lia.
Qed.

Lemma length_substring_0 (n : nat) (s : string) :
  String.length (substring 0 n s) = Nat.min n (String.length s).
Proof.
  revert s. induction n as [|n IH]; intros [|c s]; simpl; try reflexivity.
  now rewrite IH.
Qed.

Lemma has_char_app (c : ascii) (a b : string) :
  has_char c (a ++ b) = has_char c a || has_char c b.
Proof.
  induction a as [|x a IH]; simpl; [reflexivity|].
  rewrite IH. now rewrite orb_assoc.
Qed.

Lemma all_chars_app (P : ascii -> bool) (a b : string) :
  all_chars P (a ++ b) = all_chars P a && all_chars P b.
Proof.
  induction a as [|x a IH]; simpl; [reflexivity|].
  rewrite IH. now rewrite andb_assoc.
Qed.

Lemma all_chars_has_char (P : ascii -> bool) (c : ascii) (s : string) :
  P c = false -> all_chars P s = true -> has_char c s = false.
Proof.
  intros Hc. induction s as [|x s IH]; simpl; [reflexivity|].
  intros H. apply andb_true_iff in H. destruct H as [Hx Hs].
  rewrite (IH Hs), orb_false_r.
  destruct (Ascii.eqb_spec x c) as [->|]; [congruence | reflexivity].
Qed.

Lemma before_first_app (c : ascii) (a rest : string) :
  has_char c a = false -> before_first c (a ++ String c rest) = a.
Proof.
  induction a as [|x a IH]; simpl.
  - intros _. now rewrite Ascii.eqb_refl.
  - intros H. apply orb_false_iff in H. destruct H as [Hx Ha].
    rewrite Hx. now rewrite (IH Ha).
Qed.

Lemma after_last_app (c : ascii) (a b : string) :
  has_char c b = false -> after_last c (a ++ String c b) = b.
Proof.
  intros Hb. induction a as [|x a IH]; simpl.
  - now rewrite Hb, Ascii.eqb_refl.
  - rewrite has_char_app. simpl. rewrite Ascii.eqb_refl, orb_true_r.
    exact IH.
Qed.

(** What [shown_percent] reads on a line of the shape of the stat lines. *)
Lemma shown_percent_spec (label value rest : string) :
  has_char "%" label = false ->
  all_chars is_number_char value = true ->
  shown_percent ((label ++ "]") ++ value ++ String "%" rest) = value.
Proof.
  intros Hl Hv. unfold shown_percent.
  rewrite <- app_assoc_str, before_first_app.
  - rewrite app_assoc_str. simpl. apply after_last_app.
    now apply all_chars_has_char with (P := is_number_char).
  - rewrite !has_char_app, Hl. simpl.
    now apply all_chars_has_char with (P := is_number_char).
Qed.

End StringFacts.

Section NumberFacts.

Lemma digit_char_is_digit (d : Z) :
  0 <= d < 10 -> is_digit (digit_char d) = true.
Proof.
  intros Hd. unfold is_digit, digit_char.
  rewrite nat_ascii_embedding by lia.
  apply andb_true_iff. split; apply Nat.leb_le; lia.
Qed.

Lemma digits_fuel_chars (fuel : nat) : forall n acc,
  0 <= n ->
  all_chars is_digit acc = true ->
  all_chars is_digit (digits_fuel fuel n acc) = true.
Proof.
  induction fuel as [|f IH]; intros n acc Hn Hacc; simpl; [assumption|].
  assert (Hd : all_chars is_digit (String (digit_char (n mod 10)) acc) = true).
  { cbn [all_chars]. rewrite Hacc, digit_char_is_digit; [reflexivity|].
    apply Z.mod_pos_bound. lia. }
  destruct (n <? 10); [exact Hd|].
  apply IH; [|exact Hd]. apply Z.div_pos; lia.
Qed.

(** With enough fuel the digit loop writes at least one digit and no more
    than the decimal size of the number. *)
Lemma digits_fuel_length (fuel : nat) : forall n k acc,
  0 <= n < 2 ^ Z.of_nat (S fuel) ->
  (1 <= k)%nat ->
  n < 10 ^ Z.of_nat k ->
  (1 + String.length acc <= String.length (digits_fuel (S fuel) n acc)
   <= k + String.length acc)%nat.
Proof.
  induction fuel as [|f IH]; intros n k acc Hn Hk Hlt.
  - cbn [digits_fuel]. change (2 ^ Z.of_nat 1) with 2 in Hn.
    destruct (Z.ltb_spec n 10) as [Hs|Hl]; [|lia].
    cbn [String.length]. lia.
  - remember (S f) as f' eqn:Hf'. cbn [digits_fuel].
    destruct (Z.ltb_spec n 10) as [Hs|Hl].
    + cbn [String.length]. lia.
    + destruct k as [|[|k]]; [lia| change (10 ^ Z.of_nat 1) with 10 in Hlt; lia |].
      assert (Hdiv : 0 <= n / 10 < 2 ^ Z.of_nat f').
      { split; [apply Z.div_pos; lia|].
        apply Z.div_lt_upper_bound; [lia|].
        rewrite Nat2Z.inj_succ, Z.pow_succ_r in Hn by lia. lia. }
      assert (Hpow : n / 10 < 10 ^ Z.of_nat (S k)).
      { apply Z.div_lt_upper_bound; [lia|].
        rewrite (Nat2Z.inj_succ (S k)), Z.pow_succ_r in Hlt by lia. lia. }
      subst f'.
      specialize (IH (n / 10) (S k)
                     (String (digit_char (n mod 10)) acc)
                     Hdiv ltac:(lia) Hpow).
      cbn [String.length] in IH. lia.
Qed.

Lemma fuel_enough (n : Z) :
  0 <= n -> n < 2 ^ Z.of_nat (S (Z.to_nat (Z.log2 n))).
Proof.
  intros Hn. rewrite Nat2Z.inj_succ, Z2Nat.id by apply Z.log2_nonneg.
  destruct (Z.eq_dec n 0) as [->|Hnz]; [reflexivity|].
  apply Z.log2_spec. lia.
Qed.

Lemma str_nonneg_length (n : Z) (k : nat) :
  0 <= n < 10 ^ Z.of_nat k -> (1 <= k)%nat ->
  (1 <= String.length (str_nonneg n) <= k)%nat.
Proof.
  intros [Hn Hlt] Hk. unfold str_nonneg.
  pose proof (@digits_fuel_length (Z.to_nat (Z.log2 n)) n k ""
                (conj Hn (@fuel_enough n Hn)) Hk Hlt) as H.
  cbn [String.length] in H. lia.
Qed.

Lemma str_int_length (n : Z) (k : nat) :
  0 <= n < 10 ^ Z.of_nat k -> (1 <= k)%nat ->
  (1 <= String.length (str_int n) <= k)%nat.
Proof.
  intros Hn Hk. unfold str_int.
  destruct (Z.ltb_spec n 0); [lia|]. now apply str_nonneg_length.
Qed.

Lemma str_nonneg_chars (n : Z) :
  0 <= n -> all_chars is_digit (str_nonneg n) = true.
Proof.
  intros Hn. unfold str_nonneg. now apply digits_fuel_chars.
Qed.

Lemma all_chars_weaken (P Q : ascii -> bool) (s : string) :
  (forall c, P c = true -> Q c = true) ->
  all_chars P s = true -> all_chars Q s = true.
Proof.
  intros HPQ. induction s as [|x s IH]; simpl; [reflexivity|].
  intros H. apply andb_true_iff in H. destruct H as [Hx Hs].
  now rewrite (HPQ _ Hx), (IH Hs).
Qed.

Lemma str_float_chars (x : float1) :
  all_chars is_number_char (str_float x) = true.
Proof.
  unfold str_float.
  assert (Hw : forall n, 0 <= n ->
               all_chars is_number_char (str_nonneg n) = true).
  { intros n Hn. apply all_chars_weaken with (P := is_digit).
    - intros c Hc. unfold is_number_char. now rewrite Hc.
    - now apply str_nonneg_chars. }
  rewrite !all_chars_app, !Hw.
  - now destruct (tenths x <? 0).
  - apply Z.mod_pos_bound. lia.
  - apply Z.div_pos; lia.
Qed.

(** On non-negative numbers floor division truncates. *)
Lemma floordiv_quot (b d : Z) :
  0 <= b -> 0 < d -> floordiv b d = Z.quot b d.
Proof.
  intros Hb Hd. unfold floordiv. symmetry. apply Z.quot_div_nonneg; lia.
Qed.

End NumberFacts.

(** ** Facts about [sorted] *)

Section SortFacts.
Variable A : Type.
Variable f : A -> Z.

Lemma insert_by_perm (x : A) (l : list A) :
  Permutation (insert_by f x l) (x :: l).
Proof.
  induction l as [|y l IH]; simpl; [apply Permutation_refl|].
  destruct (f x <? f y); [|apply Permutation_refl].
  eapply Permutation_trans; [apply perm_skip, IH | apply perm_swap].
Qed.

Lemma sort_by_perm (l : list A) : Permutation (sort_by f l) l.
Proof.
  induction l as [|x l IH]; simpl; [constructor|].
  eapply Permutation_trans; [apply insert_by_perm | now apply perm_skip].
Qed.

Lemma insert_by_sorted (x : A) (l : list A) :
  StronglySorted (desc_by f) l -> StronglySorted (desc_by f) (insert_by f x l).
Proof.
  induction 1 as [|y l Hl IH Hy]; simpl.
  - repeat constructor.
  - destruct (Z.ltb_spec (f x) (f y)) as [Hlt|Hge].
    + constructor; [exact IH|].
      apply (Permutation_Forall (Permutation_sym (insert_by_perm x l))).
      constructor; [unfold desc_by; lia | exact Hy].
    + constructor; [now constructor|].
      constructor; [exact Hge|].
      eapply Forall_impl; [|exact Hy].
      unfold desc_by in *. intros z Hz. lia.
Qed.

Lemma sort_by_sorted (l : list A) : StronglySorted (desc_by f) (sort_by f l).
Proof.
  induction l as [|x l IH]; simpl; [constructor|].
  now apply insert_by_sorted.
Qed.

(** Insertion never moves an element past one of the same key. *)
Lemma insert_by_stable (k : Z) (x : A) (l : list A) :
  filter (keyed_by f k) (insert_by f x l) = filter (keyed_by f k) (x :: l).
Proof.
  induction l as [|y l IH]; [reflexivity|].
  cbn [insert_by]. destruct (Z.ltb_spec (f x) (f y)) as [Hlt|Hge];
    [|reflexivity].
  cbn [filter] in *. rewrite IH. unfold keyed_by.
  destruct (Z.eqb_spec (f x) k), (Z.eqb_spec (f y) k);
    try reflexivity; lia.
Qed.

Lemma sort_by_stable (k : Z) (l : list A) :
  filter (keyed_by f k) (sort_by f l) = filter (keyed_by f k) l.
Proof.
  induction l as [|x l IH]; [reflexivity|].
  cbn [sort_by]. rewrite insert_by_stable. cbn [filter]. now rewrite IH.
Qed.

(** The decorated sort is [sort_by] under the decoration. *)
Lemma insert_desc_with_key (x : A) (l : list A) :
  insert_desc (with_key f x) (map (with_key f) l)
  = map (with_key f) (insert_by f x l).
Proof.
  induction l as [|y l IH]; [reflexivity|].
  cbn [map insert_desc insert_by with_key fst] in *.
  destruct (f x <? f y); [|reflexivity].
  cbn [map]. now rewrite IH.
Qed.

Lemma sort_desc_with_key (l : list A) :
  sort_desc (map (with_key f) l) = map (with_key f) (sort_by f l).
Proof.
  induction l as [|x l IH]; [reflexivity|].
  cbn [map sort_desc sort_by]. now rewrite IH, insert_desc_with_key.
Qed.

Lemma decorate_total (key : A -> result Z) (l : list A) :
  (forall x, key x = Ok (f x)) ->
  decorate key l = Ok (map (with_key f) l).
Proof.
  intros Hkey. induction l as [|x l IH]; [reflexivity|].
  cbn [decorate map]. rewrite Hkey, IH. reflexivity.
Qed.

(** A key that never raises makes [sorted] return, with the stable
    descending sort of its argument. *)
Lemma sorted_reverse_total (key : A -> result Z) (l : list A) :
  (forall x, key x = Ok (f x)) ->
  sorted_reverse key l = Ok (sort_by f l).
Proof.
  intros Hkey. unfold sorted_reverse.
  rewrite (@decorate_total key l Hkey). cbn [bind ret].
  rewrite sort_desc_with_key, map_map. cbn [with_key snd].
  now rewrite map_id.
Qed.

Lemma sorted_firstn (n : nat) (l : list A) :
  StronglySorted (desc_by f) l -> StronglySorted (desc_by f) (firstn n l).
Proof.
  intros H. revert n. induction H as [|x l Hl IH Hx]; intros [|n];
    cbn [firstn]; try constructor.
  - apply IH.
  - rewrite Forall_forall in *. intros y Hy. apply Hx.
    rewrite <- (firstn_skipn n l). apply in_or_app. now left.
Qed.

Lemma sorted_app_inv (l1 l2 : list A) :
  StronglySorted (desc_by f) (l1 ++ l2)%list ->
  forall x y, In x l1 -> In y l2 -> desc_by f x y.
Proof.
  induction l1 as [|a l1 IH]; intros H x y Hx Hy; [destruct Hx|].
  cbn [app] in H. apply StronglySorted_inv in H. destruct H as [Hs Ha].
  destruct Hx as [->|Hx]; [|now apply IH].
  rewrite Forall_forall in Ha. apply Ha, in_or_app. now right.
Qed.

End SortFacts.

(** ** Ranking *)

Lemma sort_key_ranked (p : process) : sort_key p = Ok (ranked_rss p).
Proof.
  unfold sort_key, ranked_rss. now destruct (memory_info p).
Qed.

Lemma processes_eq (ps : list process) :
  processes ps = Ok (sort_by ranked_rss ps).
Proof.
  unfold processes. apply sorted_reverse_total, sort_key_ranked.
Qed.

Lemma top_processes_eq (ps : list process) :
  top_processes ps = Ok (firstn 5 (sort_by ranked_rss ps)).
Proof.
  unfold top_processes. now rewrite processes_eq.
Qed.

(** C1: the processes a tick keeps, [processes[:5]], are at most five, in
    descending order of resident memory, and they are the largest ones: the
    whole enumeration is these followed by a rest none of which is larger.
    Processes of equal resident memory keep their enumeration order: for
    every value [k], the processes of that value read off the enumeration
    are those among the kept ones, in the same order, followed by those of
    the rest. *)
Theorem top_processes_sorted_stable (ps : list process) :
  exists top rest,
    top_processes ps = Ok top /\
    (List.length top <= 5)%nat /\
    StronglySorted rss_desc top /\
    Permutation ps (top ++ rest)%list /\
    (forall p q, In p top -> In q rest -> ranked_rss q <= ranked_rss p) /\
    (forall k, filter (has_rss k) ps
               = (filter (has_rss k) top ++ filter (has_rss k) rest)%list).
Proof.
  exists (firstn 5 (sort_by ranked_rss ps)), (skipn 5 (sort_by ranked_rss ps)).
  pose proof (sort_by_sorted ranked_rss ps) as Hsorted.
  split; [apply top_processes_eq|].
  split; [apply firstn_le_length|].
  split; [now apply sorted_firstn|].
  split; [rewrite firstn_skipn; apply Permutation_sym, sort_by_perm|].
  split.
  - intros p q Hp Hq. rewrite <- (firstn_skipn 5) in Hsorted.
    exact (@sorted_app_inv _ ranked_rss _ _ Hsorted p q Hp Hq).
  - intros k. rewrite <- filter_app, firstn_skipn.
    symmetry. apply (sort_by_stable ranked_rss).
Qed.

(** The tie of the two 300 MB processes in the five-process sample. *)
Lemma top_processes_sample_five :
  top_processes five_procs = Ok five_procs.
Proof. vm_compute. reflexivity. Qed.

(** C10: the sort key returns for every process, with 0 for one whose
    memory information is [None]; the sort returns for every enumeration;
    and in its result every process of positive resident memory stands in
    front of every process without memory information. *)
Theorem sort_key_total (ps : list process) :
  (forall p, exists k,
      sort_key p = Ok k /\ (memory_info p = None -> k = 0)) /\
  exists sorted,
    processes ps = Ok sorted /\
    forall front p back,
      sorted = (front ++ p :: back)%list ->
      memory_info p = None ->
      forall q m, In q ps -> memory_info q = Some m -> 0 < rss m ->
                  In q front.
Proof.
  split.
  - intros p. exists (ranked_rss p). split; [apply sort_key_ranked|].
    unfold ranked_rss. now intros ->.
  - exists (sort_by ranked_rss ps). split; [apply processes_eq|].
    intros front p back Hsplit Hp q m Hq Hm Hpos.
    pose proof (sort_by_sorted ranked_rss ps) as Hsorted.
    apply (Permutation_in _ (Permutation_sym (sort_by_perm ranked_rss ps)))
      in Hq.
    rewrite Hsplit in Hq, Hsorted.
    apply in_app_or in Hq. destruct Hq as [Hq|[Hq|Hq]]; [exact Hq| |].
    + subst q. congruence.
    + exfalso.
      assert (Hle : ranked_rss q <= ranked_rss p).
      { apply (@sorted_app_inv _ ranked_rss (front ++ [p]) back);
          [now rewrite <- app_assoc | apply in_or_app; right; now left | exact Hq]. }
      unfold ranked_rss in Hle. rewrite Hp, Hm in Hle. lia.
Qed.

Lemma sort_key_total_witness :
  processes [denied_proc; proc 1204 "chrome.exe" 300]
  = Ok [proc 1204 "chrome.exe" 300; denied_proc] /\
  In (proc 1204 "chrome.exe" 300) [proc 1204 "chrome.exe" 300].
Proof.
  split; [vm_compute; reflexivity|].
  destruct (sort_key_total [denied_proc; proc 1204 "chrome.exe" 300])
    as [_ [sorted [Hs H]]].
  apply (H [proc 1204 "chrome.exe" 300] denied_proc []
           ltac:(vm_compute in Hs; injection Hs as <-; reflexivity)
           eq_refl
           (proc 1204 "chrome.exe" 300) {| rss := 300 * MiB; vms := 0 |}).
  - right. now left.
  - reflexivity.
  - reflexivity.
Defined.

(** ** The table rows *)

Lemma process_row_some (p : process) (m : pmem) :
  memory_info p = Some m ->
  process_row p
  = Ok (format_row (pid p) (display_name (name p)) (floordiv (rss m) MB)).
Proof.
  intros Hm. unfold process_row. now rewrite Hm.
Qed.

Lemma process_row_none (p : process) :
  memory_info p = None -> process_row p = Raise AttributeError.
Proof.
  intros Hm. unfold process_row. now rewrite Hm.
Qed.

(** Nothing in the body of the [try] raises what the [except] names. *)
Lemma process_row_never_caught (p : process) :
  process_row p <> Raise NoSuchProcess /\ process_row p <> Raise AccessDenied.
Proof.
  destruct (memory_info p) as [m|] eqn:Hm.
  - rewrite (process_row_some _ Hm). split; discriminate.
  - rewrite (process_row_none _ Hm). split; discriminate.
Qed.

Lemma row_of_format_row (p : process) (m : pmem) :
  memory_info p = Some m ->
  row_of p (format_row (pid p) (display_name (name p)) (floordiv (rss m) MB)).
Proof.
  intros Hm. exists m. split; [exact Hm|]. reflexivity.
Qed.

Lemma for_loop_inv (procs : list process) : forall acc out,
  for_loop acc procs = Ok out ->
  exists rows, out = (acc ++ rows)%list /\ Forall2 row_of procs rows.
Proof.
  induction procs as [|p procs IH]; intros acc out H; cbn [for_loop] in H.
  - injection H as <-. exists []. split; [now rewrite app_nil_r|constructor].
  - unfold loop_step in H.
    destruct (memory_info p) as [m|] eqn:Hm.
    + rewrite (process_row_some _ Hm) in H. cbn [bind] in H.
      destruct (IH _ _ H) as [rows [-> Hrows]].
      exists (format_row (pid p) (display_name (name p))
                         (floordiv (rss m) MB) :: rows).
      split; [now rewrite <- app_assoc|].
      constructor; [now apply row_of_format_row | exact Hrows].
    + rewrite (process_row_none _ Hm) in H. discriminate.
Qed.

Lemma for_loop_raises (procs : list process) : forall acc p,
  In p procs -> memory_info p = None ->
  for_loop acc procs = Raise AttributeError.
Proof.
  induction procs as [|x procs IH]; intros acc p Hin Hp; [destruct Hin|].
  cbn [for_loop]. unfold loop_step.
  destruct (memory_info x) as [m|] eqn:Hm.
  - rewrite (process_row_some _ Hm). cbn [bind].
    destruct Hin as [->|Hin]; [congruence|]. now apply IH with (p := p).
  - now rewrite (process_row_none _ Hm).
Qed.

(** C2, at the sample with one readable and one denied process: the claim
    promises a table with the one readable row and no exception; the call
    raises [AttributeError] and the widget gets no table.  The [None] that
    the sort key tests for reaches [.rss] in the loop body unguarded, and
    the [except] clause names two exceptions that body cannot raise. *)
Theorem update_stats_raises_on_denied_process :
  update_stats sample_denied blank_widget = Raise AttributeError.
Proof. vm_compute. reflexivity. Qed.

(** Whenever one of the kept processes has no memory information the tick
    raises. *)
Lemma update_stats_raises (s : sample) (w : SystemStatsWidget) (p : process) :
  In p (firstn 5 (sort_by ranked_rss (process_iter s))) ->
  memory_info p = None ->
  update_stats s w = Raise AttributeError.
Proof.
  intros Hin Hp. unfold update_stats, table_lines.
  rewrite top_processes_eq. cbn [bind].
  now rewrite (for_loop_raises _ _ p Hin Hp).
Qed.

(** ** Names *)

Lemma display_name_length (nm : string) :
  (String.length (display_name nm) <= 24)%nat.
Proof.
  unfold display_name, slice_to.
  destruct (Nat.ltb_spec 24 (String.length nm)) as [Hlong|Hshort];
    [|exact Hshort].
  rewrite length_app, length_substring_0. cbn [String.length]. lia.
Qed.

(** C3: a name longer than 24 characters is shown as its first 21
    characters followed by three dots, any other name as it is, and what is
    shown never has more than 24 characters. *)
Theorem display_name_truncates (nm : string) :
  ((24 < String.length nm)%nat ->
   display_name nm = substring 0 21 nm ++ "...") /\
  ((String.length nm <= 24)%nat -> display_name nm = nm) /\
  (String.length (display_name nm) <= 24)%nat.
Proof.
  unfold display_name, slice_to.
  destruct (Nat.ltb_spec 24 (String.length nm)) as [Hlong|Hshort].
  - split; [reflexivity|]. split; [lia|].
    rewrite length_app, length_substring_0. cbn [String.length]. lia.
  - split; [lia|]. split; [reflexivity | exact Hshort].
Qed.

Lemma display_name_truncates_witness :
  display_name long_name = "MsMpEng_AntimalwareSe..." /\
  display_name "python.exe" = "python.exe".
Proof.
  split.
  - destruct (display_name_truncates long_name) as [H _].
    rewrite H; [reflexivity | vm_compute; lia].
  - destruct (display_name_truncates "python.exe") as [_ [H _]].
    apply H. vm_compute. lia.
Defined.

(** ** The stat lines *)

(** C4, as amended: the percentage on the Memory line is the [percent]
    field of the memory reading, printed as it came, whatever the reading's
    used and total bytes are; the percentage on the Disk line is the
    [percent] field of the disk reading in the same way.  The script
    divides nothing. *)
Theorem stat_lines_show_reported_percent (total used : Z) (pct : float1) :
  shown_percent
    (memory {| vm_total := total; vm_used := used; vm_percent := pct |})
  = str_float pct /\
  shown_percent
    (disk_str {| du_total := total; du_used := used; du_percent := pct |})
  = str_float pct.
Proof.
  split.
  - exact (shown_percent_spec "[bold magenta]Memory:[/] [magenta"
             (str_float pct) _ eq_refl (str_float_chars pct)).
  - exact (shown_percent_spec "[bold green]Disk:[/] [green"
             (str_float pct) _ eq_refl (str_float_chars pct)).
Qed.

(** C4 as it was stated fails: on a memory reading of 6 GiB used of 16 GiB
    with 50.0 reported the Memory line shows 50.0, while used over total is
    37.5; on a disk reading of 100 GiB used of 500 GiB with 21.1 reported
    the Disk line shows 21.1, while used over total is 20.0. *)
Lemma shown_percent_is_not_used_over_total :
  shown_percent (memory mem_reading) = "50.0" /\
  str_float (used_over_total (vm_used mem_reading) (vm_total mem_reading))
  = "37.5" /\
  shown_percent (memory mem_reading)
  <> str_float (used_over_total (vm_used mem_reading) (vm_total mem_reading))
  /\
  shown_percent (disk_str disk_reading) = "21.1" /\
  str_float (used_over_total (du_used disk_reading) (du_total disk_reading))
  = "20.0" /\
  shown_percent (disk_str disk_reading)
  <> str_float (used_over_total (du_used disk_reading) (du_total disk_reading)).
Proof.
  repeat split; try (vm_compute; reflexivity); vm_compute; discriminate.
Qed.

(** C5: for non-negative byte counts, the Memory line and the table row
    show used, total and resident bytes divided by 2^20 with the fraction
    dropped, and the Disk line shows used and total bytes divided by 2^30
    with the fraction dropped. *)
Theorem displayed_sizes_truncate
    (mem : svmem) (disk : sdiskusage) (p : process) (m : pmem) :
  0 <= vm_used mem -> 0 <= vm_total mem ->
  0 <= du_used disk -> 0 <= du_total disk ->
  memory_info p = Some m -> 0 <= rss m ->
  memory mem
  = "[bold magenta]Memory:[/] [magenta]" ++ str_float (vm_percent mem)
      ++ "%[/] used ([green]" ++ str_int (Z.quot (vm_used mem) (2 ^ 20))
      ++ "MB[/]/[blue]" ++ str_int (Z.quot (vm_total mem) (2 ^ 20))
      ++ "MB[/])" /\
  disk_str disk
  = "[bold green]Disk:[/] [green]" ++ str_float (du_percent disk)
      ++ "%[/] used ([green]" ++ str_int (Z.quot (du_used disk) (2 ^ 30))
      ++ "GB[/]/[blue]" ++ str_int (Z.quot (du_total disk) (2 ^ 30))
      ++ "GB[/])" /\
  process_row p
  = Ok ("[cyan]" ++ rjust 6 (str_int (pid p)) ++ "[/]  [white]"
          ++ ljust 24 (display_name (name p)) ++ "[/]  [magenta]"
          ++ rjust 12 (str_int (Z.quot (rss m) (2 ^ 20))) ++ "[/]") /\
  2 ^ 20 * Z.quot (rss m) (2 ^ 20) <= rss m
    < 2 ^ 20 * (Z.quot (rss m) (2 ^ 20) + 1).
Proof.
  intros Hmu Hmt Hdu Hdt Hm Hrss.
  assert (HMB : MB = 2 ^ 20) by reflexivity.
  assert (HGB : GB = 2 ^ 30) by reflexivity.
  split; [|split; [|split]].
  - unfold memory.
    rewrite !floordiv_quot, HMB by (try assumption; reflexivity).
    reflexivity.
  - unfold disk_str.
    rewrite !floordiv_quot, HGB by (try assumption; reflexivity).
    reflexivity.
  - rewrite (process_row_some _ Hm).
    rewrite floordiv_quot, HMB by (try assumption; reflexivity).
    reflexivity.
  - rewrite Z.quot_div_nonneg by lia.
    pose proof (Z.mul_div_le (rss m) (2 ^ 20) ltac:(lia)).
    pose proof (Z.mul_succ_div_gt (rss m) (2 ^ 20) ltac:(lia)).
    lia.
Qed.

(** One byte short of 4097 MB, of 101 GB and of 501 MB: shown as 4096MB,
    100GB and 500. *)
Lemma displayed_sizes_truncate_witness :
  memory {| vm_total := 16384 * MiB; vm_used := 4097 * MiB - 1;
                 vm_percent := {| tenths := 250 |} |}
  = "[bold magenta]Memory:[/] [magenta]25.0%[/] used ([green]4096MB[/]/[blue]16384MB[/])"
  /\
  disk_str {| du_total := 500 * GiB; du_used := 101 * GiB - 1;
               du_percent := {| tenths := 200 |} |}
  = "[bold green]Disk:[/] [green]20.0%[/] used ([green]100GB[/]/[blue]500GB[/])"
  /\
  process_row {| pid := 812; name := "python.exe";
                 memory_info := Some {| rss := 501 * MiB - 1; vms := 0 |} |}
  = Ok "[cyan]   812[/]  [white]python.exe              [/]  [magenta]         500[/]".
Proof.
  destruct (@displayed_sizes_truncate
              {| vm_total := 16384 * MiB; vm_used := 4097 * MiB - 1;
                 vm_percent := {| tenths := 250 |} |}
              {| du_total := 500 * GiB; du_used := 101 * GiB - 1;
                 du_percent := {| tenths := 200 |} |}
              {| pid := 812; name := "python.exe";
                 memory_info := Some {| rss := 501 * MiB - 1; vms := 0 |} |}
              {| rss := 501 * MiB - 1; vms := 0 |})
    as [Hmem [Hdisk [Hrow _]]];
    try (vm_compute; discriminate); try reflexivity.
  rewrite Hmem, Hdisk, Hrow.
  repeat split; vm_compute; reflexivity.
Defined.

(** ** The table *)

Lemma update_stats_inv (s : sample) (w w' : SystemStatsWidget) :
  update_stats s w = Ok w' ->
  exists rows,
    Forall2 row_of (firstn 5 (sort_by ranked_rss (process_iter s))) rows /\
    w' = {| stats := stats_text s;
            table := join_lines
                       ([table_title; table_columns; table_divider] ++ rows) |}.
Proof.
  unfold update_stats, table_lines. rewrite top_processes_eq.
  cbn [bind ret].
  destruct (for_loop _ _) as [lines|e] eqn:Hloop; [|discriminate].
  intros H. injection H as <-.
  destruct (for_loop_inv _ _ Hloop) as [rows [-> Hrows]].
  now exists rows.
Qed.

(** C6: the table a tick renders is the title line, the column header
    (PID to the right in 6, Name to the left in 24, Memory (MB) to the
    right in 12), the divider of 6, 24 and 12 dashes, and then one row for
    each of the at most five kept processes, each cell formatted in the
    width of its column: the name cell is always 24 wide, the PID and
    memory cells at least 6 and 12, and exactly that for a PID of up to six
    digits and a memory value of up to twelve. *)
Theorem process_table_layout (s : sample) (w w' : SystemStatsWidget) :
  update_stats s w = Ok w' ->
  exists top rows,
    top_processes (process_iter s) = Ok top /\
    table w' = join_lines ([table_title; table_columns; table_divider] ++ rows)
    /\
    table_title = "[bold underline]Top 5 Processes by Memory Usage:[/]" /\
    table_columns
    = "[bold cyan]   PID[/]  [bold white]Name                    [/]  [bold magenta] Memory (MB)[/]"
    /\
    table_divider = "------  ------------------------  ------------" /\
    (List.length rows <= 5)%nat /\
    Forall2 row_of top rows /\
    (forall p : process,
        String.length (ljust 24 (display_name (name p))) = 24%nat /\
        (6 <= String.length (rjust 6 (str_int (pid p))))%nat /\
        (0 <= pid p < 10 ^ 6 ->
         String.length (rjust 6 (str_int (pid p))) = 6%nat)) /\
    (forall mem_mb : Z,
        (12 <= String.length (rjust 12 (str_int mem_mb)))%nat /\
        (0 <= mem_mb < 10 ^ 12 ->
         String.length (rjust 12 (str_int mem_mb)) = 12%nat)).
Proof.
  intros H. destruct (update_stats_inv _ _ H) as [rows [Hrows ->]].
  exists (firstn 5 (sort_by ranked_rss (process_iter s))), rows.
  split; [apply top_processes_eq|].
  split; [reflexivity|].
  split; [reflexivity|].
  split; [reflexivity|].
  split; [reflexivity|].
  split.
  { rewrite <- (Forall2_length Hrows). apply firstn_le_length. }
  split; [exact Hrows|].
  split.
  - intros p. rewrite length_ljust, !length_rjust.
    pose proof (display_name_length (name p)) as Hlen.
    split; [lia|]. split; [lia|].
    intros Hpid.
    pose proof (@str_int_length (pid p) 6 Hpid ltac:(lia)). lia.
  - intros mem_mb. rewrite !length_rjust. split; [lia|].
    intros Hmb.
    pose proof (@str_int_length mem_mb 12 Hmb ltac:(lia)). lia.
Qed.

Lemma process_table_layout_witness :
  exists w',
    update_stats sample_five blank_widget = Ok w' /\
    table w'
    = join_lines
        ["[bold underline]Top 5 Processes by Memory Usage:[/]";
         "[bold cyan]   PID[/]  [bold white]Name                    [/]  [bold magenta] Memory (MB)[/]";
         "------  ------------------------  ------------";
         "[cyan]   812[/]  [white]MsMpEng_AntimalwareSe...[/]  [magenta]         500[/]";
         "[cyan]  1204[/]  [white]chrome.exe              [/]  [magenta]         300[/]";
         "[cyan]    96[/]  [white]explorer.exe            [/]  [magenta]         300[/]";
         "[cyan]  5120[/]  [white]python.exe              [/]  [magenta]         100[/]";
         "[cyan]    77[/]  [white]svchost.exe             [/]  [magenta]          50[/]"]
    /\
    exists top rows,
      top_processes five_procs = Ok top /\ (List.length rows <= 5)%nat /\
      Forall2 row_of top rows.
Proof.
  destruct (update_stats sample_five blank_widget) as [w'|e] eqn:Hw;
    [|vm_compute in Hw; discriminate].
  exists w'. split; [reflexivity|].
  split; [vm_compute in Hw; injection Hw as <-; reflexivity|].
  destruct (process_table_layout sample_five blank_widget Hw)
    as [top [rows [Htop [_ [_ [_ [_ [Hlen [Hrows _]]]]]]]]].
  exists top, rows. repeat split; assumption.
Defined.

(** C7: a tick that put its two texts into the widget, run again on the
    same sample, puts the same two texts there; what the widget held before
    plays no part. *)
Theorem update_stats_idempotent (s : sample) (w w1 : SystemStatsWidget) :
  update_stats s w = Ok w1 ->
  (exists w2, update_stats s w1 = Ok w2 /\
              stats w2 = stats w1 /\ table w2 = table w1) /\
  (forall w0, update_stats s w0 = Ok w1).
Proof.
  intros H.
  assert (Hany : forall w0, update_stats s w0 = Ok w1).
  { intros w0. rewrite <- H. reflexivity. }
  split; [|exact Hany].
  exists w1. split; [apply Hany|]. split; reflexivity.
Qed.

Lemma update_stats_idempotent_witness :
  exists w1,
    update_stats sample_five blank_widget = Ok w1 /\
    update_stats sample_five w1 = Ok w1.
Proof.
  destruct (update_stats sample_five blank_widget) as [w1|e] eqn:Hw;
    [|vm_compute in Hw; discriminate].
  exists w1. split; [reflexivity|].
  destruct (update_stats_idempotent sample_five blank_widget Hw)
    as [_ Hany].
  apply Hany.
Defined.

(** ** Keys, start-up and exit *)

(** C8, as amended: the application's own binding table declares exactly
    one key, [q], for the [quit] action.  Over whatever bindings the
    framework's [App] brings, [q] is dispatched to [quit] and every other
    key is dispatched as the framework binds it: the script adds no other
    binding and removes none.  Pressing [q], after any keys that are not
    bound, ends [run()], and the script, which drops what [run()] returns
    and calls no exit, ends with status 0. *)
Theorem q_is_the_declared_key :
  map (fun b => fst (fst b)) BINDINGS = ["q"] /\
  (forall base key,
      Textual.lookup_action (Textual.merge_bindings BINDINGS base) key
      = if String.eqb key "q" then Some "quit"
        else Textual.lookup_action base key) /\
  (forall pre post,
      Forall (fun k => bound_action k = None) pre ->
      session_exit_status (pre ++ "q" :: post)%list = Some 0).
Proof.
  split; [reflexivity|]. split.
  - intros base key.
    unfold Textual.lookup_action, Textual.merge_bindings, BINDINGS.
    cbn [app find fst snd]. rewrite String.eqb_sym.
    now destruct (String.eqb key "q").
  - intros pre post Hpre. unfold session_exit_status.
    induction Hpre as [|k pre Hk _ IH]; [reflexivity|].
    cbn [app Textual.run]. unfold bound_action in Hk. now rewrite Hk.
Qed.

Lemma q_is_the_declared_key_witness :
  bound_action "q" = Some "quit" /\
  bound_action "x" = None /\
  session_exit_status ["x"; "q"] = Some 0.
Proof.
  destruct q_is_the_declared_key as [_ [Hkey Hexit]].
  split; [exact (Hkey Textual.App_BINDINGS "q")|].
  split; [exact (Hkey Textual.App_BINDINGS "x")|].
  apply (Hexit ["x"] []). constructor; [|constructor].
  exact (Hkey Textual.App_BINDINGS "x").
Defined.

(** C8 as it was stated fails: [q] is not the only key bound in the
    running application.  [ctrl+q], which [App] binds, is dispatched to
    [quit] as well and ends the script with status 0 in the same way. *)
Lemma ctrl_q_is_bound_too :
  bound_action "ctrl+q" = Some "quit" /\
  session_exit_status ["ctrl+q"] = Some 0 /\
  ~ (forall key action, bound_action key = Some action -> key = "q").
Proof.
  split; [reflexivity|]. split; [reflexivity|].
  intros H. specialize (H "ctrl+q" "quit" eq_refl). discriminate.
Qed.

(** C9: the mount handler calls [update_stats] itself exactly once, at the
    time it runs, and registers one timer, of 2 seconds, on [update_stats];
    every firing of that timer comes after the handler's own call, the
    [k]-th at 2 [k] seconds, each 2 seconds after the one before. *)
Theorem on_mount_schedule (t0 : Z) (n : nat) :
  immediate_calls on_mount t0 = [(t0, cb_update_stats)] /\
  registered_timers on_mount = [(2, cb_update_stats)] /\
  timer_calls on_mount t0 n
  = map (fun k => (t0 + 2 * Z.of_nat k, cb_update_stats)) (seq 1 n) /\
  (forall k, t0 < firing_time t0 2 (S k)) /\
  (forall k, firing_time t0 2 (S k) - firing_time t0 2 k = 2).
Proof.
  split; [reflexivity|]. split; [reflexivity|]. split.
  - unfold timer_calls. cbn [registered_timers on_mount flat_map app fst snd].
    now rewrite app_nil_r.
  - split; intros k; unfold firing_time; lia.
Qed.


(** * Further properties of [update_stats] *)

(** ** What a tick returns *)

Lemma process_row_readable (p : process) :
  readable p = true -> process_row p = Ok (row_text p).
Proof.
  unfold readable, row_text, ranked_rss.
  destruct (memory_info p) as [m|] eqn:Hm; [|discriminate].
  intros _. now apply process_row_some.
Qed.

Lemma process_row_unreadable (p : process) :
  readable p = false -> process_row p = Raise AttributeError.
Proof.
  unfold readable.
  destruct (memory_info p) as [m|] eqn:Hm; [discriminate|].
  intros _. now apply process_row_none.
Qed.

(** The loop either appends the row of every process or stops at the first
    unreadable one. *)
Lemma for_loop_closed (procs : list process) : forall acc,
  for_loop acc procs
  = if forallb readable procs
    then Ok (acc ++ map row_text procs)%list
    else Raise AttributeError.
Proof.
  induction procs as [|p procs IH]; intros acc.
  - cbn [for_loop forallb map]. now rewrite app_nil_r.
  - cbn [for_loop forallb map]. unfold loop_step.
    destruct (readable p) eqn:Hp.
    + rewrite (process_row_readable _ Hp). cbn [bind andb].
      rewrite IH. destruct (forallb readable procs); [|reflexivity].
      now rewrite <- app_assoc.
    + now rewrite (process_row_unreadable _ Hp).
Qed.

Lemma update_stats_closed (s : sample) (w : SystemStatsWidget) :
  update_stats s w
  = if forallb readable (firstn 5 (sort_by ranked_rss (process_iter s)))
    then Ok {| stats := stats_text s;
               table := join_lines
                          ([table_title; table_columns; table_divider]
                             ++ map row_text
                                  (firstn 5 (sort_by ranked_rss
                                               (process_iter s)))) |}
    else Raise AttributeError.
Proof.
  unfold update_stats, table_lines. rewrite top_processes_eq.
  cbn [bind]. rewrite for_loop_closed.
  now destruct (forallb readable _).
Qed.

(** ** Counting rows *)

Lemma filter_length_perm (A : Type) (g : A -> bool) (l l' : list A) :
  Permutation l l' ->
  List.length (filter g l) = List.length (filter g l').
Proof.
  induction 1 as [|x l l' _ IH|x y l|l l' l'' _ IH1 _ IH2]; cbn [filter].
  - reflexivity.
  - destruct (g x); cbn [List.length]; now rewrite IH.
  - destruct (g x), (g y); reflexivity.
  - now rewrite IH1.
Qed.

Lemma filter_length_lt (A : Type) (g : A -> bool) (l : list A) (x : A) :
  In x l -> g x = false ->
  (List.length (filter g l) < List.length l)%nat.
Proof.
  induction l as [|y l IH]; intros Hin Hx; [destruct Hin|].
  cbn [filter]. pose proof (filter_length_le g l) as Hle.
  destruct Hin as [->|Hin].
  - rewrite Hx. cbn [List.length]. lia.
  - specialize (IH Hin Hx). destruct (g y); cbn [List.length]; lia.
Qed.

Lemma filter_none (A : Type) (g : A -> bool) (l : list A) :
  (forall x, In x l -> g x = false) -> filter g l = [].
Proof.
  induction l as [|y l IH]; intros H; [reflexivity|].
  cbn [filter]. rewrite (H y (or_introl eq_refl)).
  apply IH. intros x Hx. apply H. now right.
Qed.



(** ** More on names *)

Lemma substring_0_app (a b : string) :
  substring 0 (String.length a) (a ++ b) = a.
Proof.
  induction a as [|c a IH]; cbn [String.length append substring].
  - now destruct b.
  - now rewrite IH.
Qed.

(** X4: shortening a name that was already shortened changes nothing. *)
Theorem display_name_idempotent (nm : string) :
  display_name (display_name nm) = display_name nm.
Proof.
  pose proof (display_name_length nm) as Hlen.
  unfold display_name at 1.
  destruct (Nat.ltb_spec 24 (String.length (display_name nm)));
    [lia | reflexivity].
Qed.

(** X5: the shown name has the length of the name, capped at 24, and it
    always starts with the first 21 characters of the name. *)
Theorem display_name_keeps_prefix (nm : string) :
  String.length (display_name nm) = Nat.min 24 (String.length nm) /\
  substring 0 21 (display_name nm) = substring 0 21 nm.
Proof.
  unfold display_name, slice_to.
  destruct (Nat.ltb_spec 24 (String.length nm)) as [Hlong|Hshort].
  - assert (H21 : String.length (substring 0 21 nm) = 21%nat).
    { rewrite length_substring_0. lia. }
    split.
    + rewrite length_app, H21. cbn [String.length]. lia.
    + rewrite <- H21 at 1. apply substring_0_app.
  - split; [lia | reflexivity].
Qed.

(** ** Width of a row *)

(** A number of at least [k + 1] decimal digits is written with at least
    that many characters. *)
Lemma digits_fuel_length_lower (fuel : nat) : forall n k acc,
  0 <= n < 2 ^ Z.of_nat (S fuel) ->
  10 ^ Z.of_nat k <= n ->
  (k + 1 + String.length acc
   <= String.length (digits_fuel (S fuel) n acc))%nat.
Proof.
  induction fuel as [|f IH]; intros n k acc Hn Hk.
  - change (2 ^ Z.of_nat 1) with 2 in Hn.
    destruct k as [|k].
    + cbn [digits_fuel]. destruct (n <? 10); cbn [String.length]; lia.
    + rewrite Nat2Z.inj_succ, Z.pow_succ_r in Hk by lia.
      assert (0 < 10 ^ Z.of_nat k) by (apply Z.pow_pos_nonneg; lia). lia.
  - remember (S f) as f' eqn:Hf'. cbn [digits_fuel].
    destruct (Z.ltb_spec n 10) as [Hs|Hl].
    + destruct k as [|k]; [cbn [String.length]; lia|].
      rewrite Nat2Z.inj_succ, Z.pow_succ_r in Hk by lia.
      assert (0 < 10 ^ Z.of_nat k) by (apply Z.pow_pos_nonneg; lia). lia.
    + assert (Hdiv : 0 <= n / 10 < 2 ^ Z.of_nat f').
      { split; [apply Z.div_pos; lia|].
        apply Z.div_lt_upper_bound; [lia|].
        rewrite Nat2Z.inj_succ, Z.pow_succ_r in Hn by lia. lia. }
      subst f'.
      destruct k as [|k].
      * assert (H0 : 10 ^ Z.of_nat 0 <= n / 10).
        { change (10 ^ Z.of_nat 0) with 1.
          apply Z.div_le_lower_bound; lia. }
        specialize (IH (n / 10) 0%nat
                       (String (digit_char (n mod 10)) acc) Hdiv H0).
        cbn [String.length] in IH. lia.
      * assert (Hk' : 10 ^ Z.of_nat k <= n / 10).
        { apply Z.div_le_lower_bound; [lia|].
          rewrite Nat2Z.inj_succ, Z.pow_succ_r in Hk by lia. lia. }
        specialize (IH (n / 10) k
                       (String (digit_char (n mod 10)) acc) Hdiv Hk').
        cbn [String.length] in IH. lia.
Qed.

Lemma str_int_length_lower (n : Z) (k : nat) :
  10 ^ Z.of_nat k <= n -> (k + 1 <= String.length (str_int n))%nat.
Proof.
  intros Hk.
  assert (Hpos : 0 < 10 ^ Z.of_nat k) by (apply Z.pow_pos_nonneg; lia).
  assert (Hn : 0 <= n) by lia.
  unfold str_int. destruct (Z.ltb_spec n 0); [lia|]. unfold str_nonneg.
  pose proof (@digits_fuel_length_lower (Z.to_nat (Z.log2 n)) n k ""
                (conj Hn (@fuel_enough n Hn)) Hk) as H'.
  cbn [String.length] in H'. lia.
Qed.

Lemma length_format_row (p : Z) (nm : string) (mem_mb : Z) :
  String.length (format_row p nm mem_mb)
  = (35 + Nat.max 6 (String.length (str_int p))
        + Nat.max 24 (String.length nm)
        + Nat.max 12 (String.length (str_int mem_mb)))%nat.
Proof.
  unfold format_row.
  rewrite !length_app, !length_rjust, length_ljust.
  cbn [String.length]. lia.
Qed.

Lemma process_row_ok (p : process) (row : string) :
  process_row p = Ok row -> readable p = true /\ row = row_text p.
Proof.
  intros H. destruct (readable p) eqn:Hp.
  - rewrite (process_row_readable _ Hp) in H. injection H as <-. now split.
  - rewrite (process_row_unreadable _ Hp) in H. discriminate.
Qed.

(** X6: the rows of processes whose PID has at most six digits and whose
    memory value has at most twelve all have the same length, 77
    characters with the markup tags, so their cells stand under each
    other. *)
Theorem rows_are_aligned (p : process) (row : string) :
  process_row p = Ok row ->
  0 <= pid p < 10 ^ 6 ->
  0 <= ranked_rss p < 10 ^ 12 * MB ->
  String.length row = 77%nat.
Proof.
  intros Hrow Hpid Hrss. destruct (process_row_ok _ Hrow) as [_ ->].
  unfold row_text. rewrite length_format_row.
  pose proof (@str_int_length (pid p) 6 Hpid ltac:(lia)) as H1.
  pose proof (display_name_length (name p)) as H2.
  assert (Hmb : 0 <= floordiv (ranked_rss p) MB < 10 ^ Z.of_nat 12).
  { unfold floordiv. change (10 ^ Z.of_nat 12) with (10 ^ 12).
    assert (0 < MB) by reflexivity.
    split; [apply Z.div_pos; lia|].
    apply Z.div_lt_upper_bound; lia. }
  pose proof (@str_int_length _ 12 Hmb ltac:(lia)) as H3.
  lia.
Qed.

Lemma rows_are_aligned_witness :
  String.length
    "[cyan]   812[/]  [white]MsMpEng_AntimalwareSe...[/]  [magenta]         500[/]"
  = 77%nat.
Proof.
  apply (@rows_are_aligned (proc 812 long_name 500)).
  - vm_compute. reflexivity.
  - vm_compute. split; congruence.
  - vm_compute. split; congruence.
Defined.

(** X7: the format widths pad and never cut: a PID of seven or more
    digits, or a memory value of thirteen or more, makes its row longer
    than the 77 characters of the aligned rows. *)
Theorem wide_number_breaks_alignment (p : Z) (nm : string) (mem_mb : Z) :
  10 ^ 6 <= p \/ 10 ^ 12 <= mem_mb ->
  (77 < String.length (format_row p nm mem_mb))%nat.
Proof.
  intros H. rewrite length_format_row.
  destruct H as [H|H].
  - pose proof (@str_int_length_lower p 6 H). lia.
  - pose proof (@str_int_length_lower mem_mb 12 H). lia.
Qed.

Lemma wide_number_breaks_alignment_witness :
  (77 < String.length (format_row 4194304 "python" 100))%nat.
Proof.
  apply wide_number_breaks_alignment. left. vm_compute. congruence.
Defined.

(** ** Lines of the two texts *)

Lemma no_newline_iff (s : string) :
  has_char LF s = false <-> all_chars not_newline s = true.
Proof.
  induction s as [|x s IH]; cbn [has_char all_chars]; [tauto|].
  unfold not_newline at 1.
  rewrite orb_false_iff, andb_true_iff, negb_true_iff. tauto.
Qed.

Lemma number_char_not_newline (c : ascii) :
  is_number_char c = true -> not_newline c = true.
Proof.
  intros H. unfold not_newline.
  destruct (Ascii.eqb_spec c LF) as [->|]; [|reflexivity].
  vm_compute in H. discriminate.
Qed.

Lemma str_int_chars (n : Z) : all_chars is_number_char (str_int n) = true.
Proof.
  assert (Hw : forall z, 0 <= z ->
               all_chars is_number_char (str_nonneg z) = true).
  { intros z Hz. apply all_chars_weaken with (P := is_digit).
    - intros c Hc. unfold is_number_char. now rewrite Hc.
    - now apply str_nonneg_chars. }
  unfold str_int. destruct (Z.ltb_spec n 0).
  - cbn [all_chars]. rewrite Hw by lia. reflexivity.
  - now apply Hw.
Qed.

Lemma str_int_one_line (n : Z) : all_chars not_newline (str_int n) = true.
Proof.
  apply all_chars_weaken with (P := is_number_char);
    [apply number_char_not_newline | apply str_int_chars].
Qed.

Lemma str_float_one_line (x : float1) :
  all_chars not_newline (str_float x) = true.
Proof.
  apply all_chars_weaken with (P := is_number_char);
    [apply number_char_not_newline | apply str_float_chars].
Qed.

Lemma str_mul_one_line (c : ascii) (n : nat) :
  not_newline c = true ->
  all_chars not_newline (str_mul (String c "") n) = true.
Proof.
  intros Hc. induction n as [|n IH]; [reflexivity|].
  cbn [str_mul append all_chars]. now rewrite Hc, IH.
Qed.

Lemma rjust_one_line (w : nat) (s : string) :
  all_chars not_newline s = true ->
  all_chars not_newline (rjust w s) = true.
Proof.
  intros Hs. unfold rjust.
  now rewrite all_chars_app, Hs, str_mul_one_line.
Qed.

Lemma ljust_one_line (w : nat) (s : string) :
  all_chars not_newline s = true ->
  all_chars not_newline (ljust w s) = true.
Proof.
  intros Hs. unfold ljust.
  now rewrite all_chars_app, Hs, str_mul_one_line.
Qed.

Lemma substring_0_chars (P : ascii -> bool) (n : nat) (s : string) :
  all_chars P s = true -> all_chars P (substring 0 n s) = true.
Proof.
  revert s. induction n as [|n IH]; intros [|c s] H; try reflexivity.
  cbn [substring all_chars] in *.
  apply andb_true_iff in H. destruct H as [Hc Hs].
  now rewrite Hc, IH.
Qed.

Lemma display_name_one_line (nm : string) :
  all_chars not_newline nm = true ->
  all_chars not_newline (display_name nm) = true.
Proof.
  intros H. unfold display_name, slice_to.
  destruct (24 <? String.length nm)%nat; [|exact H].
  now rewrite all_chars_app, substring_0_chars.
Qed.

Lemma cpu_one_line (c : float1) : all_chars not_newline (cpu c) = true.
Proof.
  unfold cpu. rewrite !all_chars_app, str_float_one_line. reflexivity.
Qed.

Lemma memory_one_line (mem : svmem) :
  all_chars not_newline (memory mem) = true.
Proof.
  unfold memory.
  rewrite !all_chars_app, str_float_one_line, !str_int_one_line.
  reflexivity.
Qed.

Lemma disk_str_one_line (disk : sdiskusage) :
  all_chars not_newline (disk_str disk) = true.
Proof.
  unfold disk_str.
  rewrite !all_chars_app, str_float_one_line, !str_int_one_line.
  reflexivity.
Qed.

Lemma row_text_one_line (p : process) :
  has_char LF (name p) = false ->
  all_chars not_newline (row_text p) = true.
Proof.
  intros Hnm. apply no_newline_iff in Hnm.
  unfold row_text, format_row.
  rewrite !all_chars_app, !rjust_one_line, ljust_one_line;
    try apply str_int_one_line; [reflexivity|].
  now apply display_name_one_line.
Qed.

Lemma split_on_one (c : ascii) (a : string) :
  has_char c a = false -> split_on c a = [a].
Proof.
  induction a as [|x a IH]; [reflexivity|].
  cbn [has_char split_on]. intros H.
  apply orb_false_iff in H. destruct H as [Hx Ha].
  now rewrite Hx, (IH Ha).
Qed.

Lemma split_on_app (c : ascii) (a b : string) :
  has_char c a = false ->
  split_on c (a ++ String c b) = a :: split_on c b.
Proof.
  induction a as [|x a IH]; cbn [has_char append split_on].
  - intros _. now rewrite Ascii.eqb_refl.
  - intros H. apply orb_false_iff in H. destruct H as [Hx Ha].
    now rewrite Hx, (IH Ha).
Qed.

(** Joining lines that hold no line feed and splitting the text again
    gives the lines back. *)
Lemma split_join_lines (first : string) (others : list string) :
  Forall (fun l => all_chars not_newline l = true) (first :: others) ->
  split_lines (join_lines (first :: others)) = first :: others.
Proof.
  revert first. induction others as [|second others IH]; intros first H.
  - apply split_on_one, no_newline_iff. now inversion H.
  - inversion H as [|? ? Hfirst Hrest]; subst.
    unfold split_lines, join_lines in *.
    change (String.concat newline (first :: second :: others))
      with (first ++ String LF (String.concat newline (second :: others))).
    rewrite split_on_app by now apply no_newline_iff.
    now rewrite (IH second Hrest).
Qed.

(** X8: whatever the readings are, the stats text a tick stores is three
    lines: the CPU line, the Memory line and the Disk line. *)
Theorem stats_has_three_lines (s : sample) (w w' : SystemStatsWidget) :
  update_stats s w = Ok w' ->
  split_lines (stats w')
  = [cpu (cpu_percent s); memory (virtual_memory s);
     disk_str (disk_usage s)].
Proof.
  intros H. destruct (update_stats_inv _ _ H) as [rows [_ ->]].
  cbn [stats].
  change (stats_text s)
    with (join_lines [cpu (cpu_percent s); memory (virtual_memory s);
                      disk_str (disk_usage s)]).
  apply split_join_lines.
  repeat constructor;
    [apply cpu_one_line | apply memory_one_line | apply disk_str_one_line].
Qed.

Lemma stats_has_three_lines_witness :
  exists w',
    update_stats sample_five blank_widget = Ok w' /\
    split_lines (stats w')
    = ["[bold yellow]CPU Usage:[/] [yellow]12.3%[/]";
       "[bold magenta]Memory:[/] [magenta]25.0%[/] used ([green]4096MB[/]/[blue]16384MB[/])";
       "[bold green]Disk:[/] [green]20.0%[/] used ([green]100GB[/]/[blue]500GB[/])"].
Proof.
  destruct (update_stats sample_five blank_widget) as [w'|e] eqn:Hw;
    [|vm_compute in Hw; discriminate].
  exists w'. split; [reflexivity|].
  rewrite (stats_has_three_lines sample_five blank_widget Hw).
  vm_compute. reflexivity.
Defined.

(** X9: when no enumerated process has a line feed in its name, the table
    text a tick stores splits into the three heading lines and one line
    for each kept process, in ranking order: three lines plus the number
    of processes, up to five. *)
Theorem table_has_one_line_per_row (s : sample) (w w' : SystemStatsWidget) :
  update_stats s w = Ok w' ->
  Forall (fun p => has_char LF (name p) = false) (process_iter s) ->
  exists top,
    top_processes (process_iter s) = Ok top /\
    split_lines (table w')
    = ([table_title; table_columns; table_divider] ++ map row_text top)%list
    /\
    List.length (split_lines (table w'))
    = (3 + Nat.min 5 (List.length (process_iter s)))%nat.
Proof.
  intros H Hnames.
  exists (firstn 5 (sort_by ranked_rss (process_iter s))).
  split; [apply top_processes_eq|].
  rewrite update_stats_closed in H.
  destruct (forallb readable _); [|discriminate].
  injection H as <-. cbn [table].
  assert (Hsplit :
    split_lines
      (join_lines
         ([table_title; table_columns; table_divider]
            ++ map row_text (firstn 5 (sort_by ranked_rss (process_iter s)))))
    = ([table_title; table_columns; table_divider]
         ++ map row_text
              (firstn 5 (sort_by ranked_rss (process_iter s))))%list).
  { cbn [app]. apply split_join_lines.
    constructor; [reflexivity|]. constructor; [reflexivity|].
    constructor; [reflexivity|].
    apply Forall_forall. intros row Hrow.
    apply in_map_iff in Hrow. destruct Hrow as [p [<- Hp]].
    apply row_text_one_line.
    rewrite Forall_forall in Hnames. apply Hnames.
    apply (Permutation_in _ (sort_by_perm ranked_rss (process_iter s))).
    rewrite <- (firstn_skipn 5 (sort_by ranked_rss (process_iter s))).
    apply in_or_app. now left. }
  split; [exact Hsplit|].
  transitivity
    (List.length
       ([table_title; table_columns; table_divider]
          ++ map row_text
               (firstn 5 (sort_by ranked_rss (process_iter s))))%list);
    [apply (f_equal (@List.length string)); exact Hsplit|].
  cbn [app List.length].
  rewrite length_map, length_firstn.
  now rewrite (Permutation_length (sort_by_perm ranked_rss (process_iter s))).
Qed.

Lemma table_has_one_line_per_row_witness :
  exists w',
    update_stats sample_five blank_widget = Ok w' /\
    List.length (split_lines (table w')) = 8%nat.
Proof.
  destruct (update_stats sample_five blank_widget) as [w'|e] eqn:Hw;
    [|vm_compute in Hw; discriminate].
  exists w'. split; [reflexivity|].
  destruct (@table_has_one_line_per_row sample_five blank_widget w' Hw)
    as [top [_ [_ Hlen]]]; [|exact Hlen].
  repeat constructor.
Defined.

(** ** The ranking and the order of enumeration *)

Section RankingFacts.
Variable A : Type.
Variable f : A -> Z.

Lemma insert_by_front (x : A) (l : list A) :
  Forall (desc_by f x) l -> insert_by f x l = x :: l.
Proof.
  intros H. destruct l as [|y l]; [reflexivity|].
  cbn [insert_by]. inversion H as [|? ? Hy _]; subst.
  unfold desc_by in Hy.
  destruct (Z.ltb_spec (f x) (f y)); [lia | reflexivity].
Qed.

Lemma sort_by_sorted_id (l : list A) :
  StronglySorted (desc_by f) l -> sort_by f l = l.
Proof.
  induction 1 as [|x l Hl IH Hx]; [reflexivity|].
  cbn [sort_by]. rewrite IH. now apply insert_by_front.
Qed.

(** Two descending lists with the same elements and no repeated key are
    the same list. *)
Lemma sorted_perm_unique (l : list A) : forall l',
  StronglySorted (desc_by f) l ->
  StronglySorted (desc_by f) l' ->
  Permutation l l' ->
  NoDup (map f l) ->
  l = l'.
Proof.
  induction l as [|x l IH]; intros l' Hs Hs' Hperm Hnd.
  - symmetry. now apply Permutation_nil.
  - destruct l' as [|y l'];
      [apply Permutation_sym, Permutation_nil_cons in Hperm; destruct Hperm|].
    apply StronglySorted_inv in Hs. destruct Hs as [Hs Hx].
    apply StronglySorted_inv in Hs'. destruct Hs' as [Hs' Hy].
    cbn [map] in Hnd. apply NoDup_cons_iff in Hnd. destruct Hnd as [Hfx Hnd].
    assert (Hxy : y = x).
    { assert (Hx_in : In x (y :: l'))
        by (apply (Permutation_in _ Hperm); now left).
      destruct Hx_in as [Heq|Hx_in]; [exact Heq|].
      assert (Hy_in : In y (x :: l))
        by (apply (Permutation_in _ (Permutation_sym Hperm)); now left).
      destruct Hy_in as [Heq|Hy_in]; [now symmetry|].
      exfalso. apply Hfx.
      rewrite Forall_forall in Hx, Hy.
      pose proof (Hx _ Hy_in) as H1. pose proof (Hy _ Hx_in) as H2.
      unfold desc_by in H1, H2.
      replace (f x) with (f y) by lia. now apply in_map. }
    subst y. f_equal.
    apply IH; try assumption.
    now apply Permutation_cons_inv in Hperm.
Qed.

Lemma sort_by_perm_invariant (l l' : list A) :
  Permutation l l' -> NoDup (map f l) -> sort_by f l = sort_by f l'.
Proof.
  intros Hperm Hnd. apply sorted_perm_unique.
  - apply sort_by_sorted.
  - apply sort_by_sorted.
  - eapply Permutation_trans; [apply sort_by_perm|].
    eapply Permutation_trans; [exact Hperm|].
    apply Permutation_sym, sort_by_perm.
  - apply (Permutation_NoDup
             (Permutation_map f (Permutation_sym (sort_by_perm f l)))).
    exact Hnd.
Qed.

End RankingFacts.

(** X10: an enumeration that already comes in descending order of
    resident memory is ranked in that same order, so the kept processes
    are its first five. *)
Theorem sorted_enumeration_is_kept (ps : list process) :
  StronglySorted rss_desc ps ->
  processes ps = Ok ps /\ top_processes ps = Ok (firstn 5 ps).
Proof.
  intros Hs.
  rewrite top_processes_eq, processes_eq.
  now rewrite (@sort_by_sorted_id _ ranked_rss ps Hs).
Qed.

Lemma sorted_enumeration_is_kept_witness :
  processes five_procs = Ok five_procs.
Proof.
  apply sorted_enumeration_is_kept.
  unfold five_procs.
  repeat (constructor;
          [| repeat (constructor; [vm_compute; congruence|]); constructor]).
  constructor.
Defined.

(** X11: when no two enumerated processes have the same ranked resident
    memory, the ranking and the kept processes do not depend on the order
    in which the processes were enumerated. *)
Theorem ranking_ignores_enumeration_order (ps ps' : list process) :
  Permutation ps ps' ->
  NoDup (map ranked_rss ps) ->
  processes ps = processes ps' /\ top_processes ps = top_processes ps'.
Proof.
  intros Hperm Hnd.
  rewrite !top_processes_eq, !processes_eq.
  now rewrite (sort_by_perm_invariant ranked_rss Hperm Hnd).
Qed.

Lemma ranking_ignores_enumeration_order_witness :
  processes [denied_proc; proc 77 "svchost.exe" 50; proc 812 long_name 500]
  = processes [proc 812 long_name 500; denied_proc; proc 77 "svchost.exe" 50].
Proof.
  apply ranking_ignores_enumeration_order.
  - apply Permutation_sym. apply (Permutation_cons_app [_; _] []).
    apply Permutation_refl.
  - vm_compute.
    repeat (constructor; [cbn [In]; intuition congruence|]).
    constructor.
Defined.

(** * The tick over entries whose name can be [None] *)

Section TopFive.
Variable A : Type.
Variable f : A -> Z.

(** With five elements of positive key in a list, the first five of its
    ranking all have a positive key. *)
Lemma top_five_positive (l : list A) :
  (5 <= List.length (filter (fun x => (0 <? f x)%Z) l))%nat ->
  forall x, In x (firstn 5 (sort_by f l)) -> 0 < f x.
Proof.
  intros Hfive x Hx.
  destruct (Z.ltb_spec 0 (f x)) as [Hpos|Hnot]; [exact Hpos|exfalso].
  set (sorted := sort_by f l) in *.
  set (pos := fun y : A => 0 <? f y) in *.
  assert (Hsorted : StronglySorted (desc_by f)
                      (firstn 5 sorted ++ skipn 5 sorted)).
  { rewrite firstn_skipn. apply sort_by_sorted. }
  assert (Hrest : filter pos (skipn 5 sorted) = []).
  { apply filter_none. intros y Hy.
    pose proof (@sorted_app_inv _ f _ _ Hsorted x y Hx Hy) as Hle.
    unfold desc_by in Hle. unfold pos. apply Z.ltb_ge. lia. }
  assert (Hcount : List.length (filter pos l)
                   = List.length (filter pos (firstn 5 sorted))).
  { rewrite (filter_length_perm pos (Permutation_sym (sort_by_perm f l))).
    fold sorted. rewrite <- (firstn_skipn 5 sorted) at 1.
    rewrite filter_app, Hrest, app_nil_r. reflexivity. }
  assert (Hx' : pos x = false) by (unfold pos; apply Z.ltb_ge; lia).
  pose proof (filter_length_lt pos _ _ Hx Hx') as Hlt.
  pose proof (firstn_le_length 5 sorted). lia.
Qed.

End TopFive.

Lemma info_sort_key_ranked (p : proc_info) :
  info_sort_key p = Ok (info_ranked_rss p).
Proof.
  unfold info_sort_key, info_ranked_rss. now destruct (info_memory_info p).
Qed.

Lemma info_top_processes_eq (ps : list proc_info) :
  info_top_processes ps = Ok (firstn 5 (sort_by info_ranked_rss ps)).
Proof.
  unfold info_top_processes, info_processes.
  now rewrite (sorted_reverse_total info_ranked_rss _ ps info_sort_key_ranked).
Qed.

(** The row of an entry: its failure if it has one, and otherwise the row
    of the entry read as a [process]. *)
Lemma info_process_row_eq (p : proc_info) :
  info_process_row p
  = match row_failure p with
    | Some e => Raise e
    | None => Ok (row_text (named p))
    end.
Proof.
  unfold info_process_row, row_failure, row_text, named, ranked_rss,
    info_display_name, display_name.
  destruct (info_memory_info p) as [m|]; [|reflexivity].
  destruct (info_name p) as [nm|]; reflexivity.
Qed.

(** The exception a run of the loop ends with, if it ends with one: the
    failure of the first entry that has one. *)
Lemma info_for_loop_raise (procs : list proc_info) : forall acc e,
  info_for_loop acc procs = Raise e ->
  exists front p back,
    procs = (front ++ p :: back)%list /\
    forallb complete front = true /\
    row_failure p = Some e.
Proof.
  induction procs as [|p procs IH]; intros acc e H; [discriminate|].
  cbn [info_for_loop] in H. unfold info_loop_step in H.
  rewrite info_process_row_eq in H.
  destruct (row_failure p) as [e'|] eqn:Hp.
  - assert (He : e' = e).
    { unfold row_failure in Hp.
      destruct (info_memory_info p), (info_name p); try discriminate;
        injection Hp as <-; cbn [bind] in H; congruence. }
    subst e'. exists [], p, procs. now repeat split.
  - cbn [bind] in H. destruct (IH _ _ H) as [front [q [back [-> [Hf Hq]]]]].
    exists (p :: front), q, back. split; [reflexivity|].
    split; [|exact Hq]. cbn [forallb]. unfold complete at 1.
    now rewrite Hp.
Qed.

Lemma info_for_loop_complete (procs : list proc_info) : forall acc,
  forallb complete procs = true ->
  info_for_loop acc procs
  = Ok (acc ++ map (fun p => row_text (named p)) procs)%list.
Proof.
  induction procs as [|p procs IH]; intros acc H.
  - cbn [info_for_loop map]. now rewrite app_nil_r.
  - cbn [forallb] in H. apply andb_true_iff in H. destruct H as [Hp Hrest].
    cbn [info_for_loop map]. unfold info_loop_step.
    rewrite info_process_row_eq. unfold complete in Hp.
    destruct (row_failure p); [discriminate|].
    cbn [bind]. rewrite (IH _ Hrest). now rewrite <- app_assoc.
Qed.

Lemma info_for_loop_ok (procs : list proc_info) : forall acc out,
  info_for_loop acc procs = Ok out -> forallb complete procs = true.
Proof.
  induction procs as [|p procs IH]; intros acc out H; [reflexivity|].
  cbn [info_for_loop] in H. unfold info_loop_step in H.
  rewrite info_process_row_eq in H. cbn [forallb]. unfold complete at 1.
  destruct (row_failure p) as [e|] eqn:Hp.
  - unfold row_failure in Hp.
    destruct (info_memory_info p), (info_name p); try discriminate;
      injection Hp as <-; discriminate.
  - cbn [bind] in H. now rewrite (IH _ _ H).
Qed.

(** X1: a tick over entries that can lack their memory information or
    their name has three outcomes and no other.  When each of the kept
    entries (the first five of the ranking) has both, it stores the stat
    lines and the table of the three heading lines followed by the row of
    each kept entry, in ranking order.  Otherwise it stores nothing and
    raises what the first kept entry that lacks something fails with:
    [AttributeError] if that entry has no memory information, [TypeError]
    if it has memory information and no name. *)
Theorem tick_outcomes (s : host_sample) (w : SystemStatsWidget) :
  exists top,
    info_top_processes (host_process_iter s) = Ok top /\
    (forallb complete top = true ->
     info_update_stats s w
     = Ok {| stats := host_stats_text s;
             table := join_lines
                        ([table_title; table_columns; table_divider]
                           ++ map (fun p => row_text (named p)) top) |}) /\
    (forall w', info_update_stats s w = Ok w' ->
                forallb complete top = true) /\
    (forall e, info_update_stats s w = Raise e ->
       exists front p back,
         top = (front ++ p :: back)%list /\
         forallb complete front = true /\
         ((e = AttributeError /\ info_memory_info p = None) \/
          (e = TypeError /\ info_memory_info p <> None /\
           info_name p = None))).
Proof.
  exists (firstn 5 (sort_by info_ranked_rss (host_process_iter s))).
  split; [apply info_top_processes_eq|].
  unfold info_update_stats, info_table_lines.
  rewrite info_top_processes_eq. cbn [bind].
  split; [|split].
  - intros Hall. now rewrite (info_for_loop_complete _ _ Hall).
  - intros w' H.
    destruct (info_for_loop _ _) as [lines|e] eqn:Hloop; [|discriminate].
    exact (info_for_loop_ok _ _ Hloop).
  - intros e H.
    destruct (info_for_loop _ _) as [lines|e'] eqn:Hloop; [discriminate|].
    injection H as ->.
    destruct (info_for_loop_raise _ _ Hloop) as [front [p [back [Htop [Hf Hp]]]]].
    exists front, p, back. split; [exact Htop|]. split; [exact Hf|].
    unfold row_failure in Hp.
    destruct (info_memory_info p) as [m|].
    + destruct (info_name p); [discriminate|]. injection Hp as <-.
      right. split; [reflexivity|]. split; [discriminate|reflexivity].
    + injection Hp as <-. left. now split.
Qed.

Lemma tick_outcomes_witness :
  (exists w', info_update_stats (host five_infos) blank_widget = Ok w') /\
  info_update_stats (host [info 1204 "chrome.exe" 300; info_no_memory])
    blank_widget = Raise AttributeError /\
  info_update_stats (host [info 1204 "chrome.exe" 300; info_no_name])
    blank_widget = Raise TypeError.
Proof.
  split.
  - destruct (tick_outcomes (host five_infos) blank_widget)
      as [top [Htop [Hok _]]].
    eexists. apply Hok.
    vm_compute in Htop. injection Htop as <-. vm_compute. reflexivity.
  - split; vm_compute; reflexivity.
Defined.

(** X2: when at least five enumerated entries report resident memory
    above zero, and every entry that does so has a name, the tick stores
    its texts and raises nothing, however many other entries lack their
    memory information or their name: those are ranked behind the five
    and never reach the loop. *)
Theorem tick_succeeds_with_five (s : host_sample) (w : SystemStatsWidget) :
  (5 <= List.length (filter info_has_memory (host_process_iter s)))%nat ->
  (forall p, In p (host_process_iter s) ->
             info_has_memory p = true -> info_name p <> None) ->
  exists w', info_update_stats s w = Ok w'.
Proof.
  intros Hfive Hnames.
  unfold info_update_stats, info_table_lines.
  rewrite info_top_processes_eq. cbn [bind].
  rewrite info_for_loop_complete; [eexists; reflexivity|].
  apply forallb_forall. intros p Hp.
  pose proof (top_five_positive info_ranked_rss _ Hfive p Hp) as Hpos.
  assert (Hin : In p (host_process_iter s)).
  { apply (Permutation_in _ (sort_by_perm info_ranked_rss (host_process_iter s))).
    rewrite <- (firstn_skipn 5 (sort_by info_ranked_rss (host_process_iter s))).
    apply in_or_app. now left. }
  assert (Hmem : info_has_memory p = true)
    by (unfold info_has_memory; now apply Z.ltb_lt).
  specialize (Hnames p Hin Hmem).
  unfold complete, row_failure. unfold info_ranked_rss in Hpos.
  destruct (info_memory_info p); [|lia].
  now destruct (info_name p).
Qed.

Lemma tick_succeeds_with_five_witness :
  exists w',
    info_update_stats
      (host (info_no_memory
               :: {| info_pid := 9; info_name := None;
                     info_memory_info := None |} :: five_infos))
      blank_widget = Ok w'.
Proof.
  apply tick_succeeds_with_five.
  - vm_compute. lia.
  - intros p Hin Hmem.
    cbn [host host_process_iter five_infos In] in Hin.
    repeat (destruct Hin as [<-|Hin]);
      try (vm_compute in Hmem; discriminate);
      try (vm_compute; discriminate).
    destruct Hin.
Defined.

(** ** Entries that all have a name *)

Section SortMap.
Variables A B : Type.
Variable g : A -> B.
Variable f : B -> Z.

Lemma insert_by_map (x : A) (l : list A) :
  insert_by f (g x) (map g l) = map g (insert_by (fun a => f (g a)) x l).
Proof.
  induction l as [|y l IH]; [reflexivity|].
  cbn [map insert_by]. destruct (f (g x) <? f (g y)); [|reflexivity].
  cbn [map]. now rewrite IH.
Qed.

Lemma sort_by_map (l : list A) :
  sort_by f (map g l) = map g (sort_by (fun a => f (g a)) l).
Proof.
  induction l as [|x l IH]; [reflexivity|].
  cbn [map sort_by]. now rewrite IH, insert_by_map.
Qed.

End SortMap.

Lemma readable_named (p : proc_info) :
  info_name p <> None -> readable (named p) = complete p.
Proof.
  intros Hnm. unfold readable, named, complete, row_failure. cbn [memory_info].
  destruct (info_memory_info p); [|reflexivity].
  now destruct (info_name p).
Qed.

(** When every enumerated entry has a name, the tick over the entries is
    the tick over the entries read as processes: what holds of
    [update_stats] holds of it. *)
Lemma info_update_stats_named (s : host_sample) (w : SystemStatsWidget) :
  (forall p, In p (host_process_iter s) -> info_name p <> None) ->
  info_update_stats s w = update_stats (named_sample s) w.
Proof.
  intros Hnames. rewrite update_stats_closed.
  cbn [named_sample process_iter].
  rewrite (sort_by_map named ranked_rss).
  change (fun a => ranked_rss (named a)) with info_ranked_rss.
  rewrite !firstn_map.
  set (top := firstn 5 (sort_by info_ranked_rss (host_process_iter s))).
  assert (Htop : forall p, In p top -> info_name p <> None).
  { intros p Hp. apply Hnames.
    apply (Permutation_in _ (sort_by_perm info_ranked_rss (host_process_iter s))).
    rewrite <- (firstn_skipn 5 (sort_by info_ranked_rss (host_process_iter s))).
    apply in_or_app. now left. }
  assert (Hall : forallb readable (map named top) = forallb complete top).
  { clear -Htop. induction top as [|p top IH]; [reflexivity|].
    cbn [map forallb]. rewrite IH by (intros q Hq; apply Htop; now right).
    now rewrite (readable_named p (Htop p (or_introl eq_refl))). }
  rewrite Hall.
  unfold info_update_stats, info_table_lines.
  rewrite info_top_processes_eq. fold top. cbn [bind].
  destruct (forallb complete top) eqn:Hc.
  - rewrite (info_for_loop_complete _ _ Hc). cbn [bind ret].
    now rewrite map_map.
  - destruct (info_for_loop _ top) as [lines|e] eqn:Hloop.
    + rewrite (info_for_loop_ok _ _ Hloop) in Hc. discriminate.
    + destruct (info_for_loop_raise _ _ Hloop)
        as [front [p [back [Heq [_ Hp]]]]].
      assert (Hin : In p top)
        by (rewrite Heq; apply in_or_app; right; now left).
      specialize (Htop p Hin). unfold row_failure in Hp.
      destruct (info_memory_info p); [|now injection Hp as <-].
      now destruct (info_name p).
Qed.
